(** * vendetta-debug: the debugger session of [src/index.js]

    A shallow embedding of the websocket/REPL session implemented in
    [src/index.js], with the properties of its specification stated and
    proved (or refuted) against that embedding.

    Layout: JavaScript data (strings, numbers, JSON values), the parts of
    the runtime the program calls ([JSON.parse], [JSON.stringify],
    [String.prototype.trim], the ansi-colors styles, the REPL callback),
    then the program itself, function by function, and finally the
    theorems. *)

From Stdlib Require Import List NArith ZArith QArith Bool String Ascii Lia.
From Stdlib Require Qcanon.
Import ListNotations.

Local Open Scope N_scope.
Set Warnings "-register-all".

(* ================================================================== *)
(** ** JavaScript strings *)

(** A JavaScript string is a sequence of UTF-16 code units. *)
Definition jsstring := list N.

(** [lit s] is the JavaScript string literal with the (ASCII) text [s]. *)
Definition lit (s : string) : jsstring :=
  map N_of_ascii (list_ascii_of_string s).

(** The code unit of the double quote. *)
Definition dquote : N := 34.

(** [WhiteSpace] and [LineTerminator] code units of ECMAScript, the ones
    [String.prototype.trim] strips. *)
Definition isWhiteSpace (c : N) : bool :=
  (c =? 9) || (c =? 10) || (c =? 11) || (c =? 12) || (c =? 13) ||
  (c =? 32) || (c =? 160) || (c =? 5760) ||
  ((8192 <=? c) && (c <=? 8202)) ||
  (c =? 8232) || (c =? 8233) || (c =? 8239) || (c =? 8287) ||
  (c =? 12288) || (c =? 65279).

Fixpoint trimStart (s : jsstring) : jsstring :=
  match s with
  | [] => []
  | c :: r => if isWhiteSpace c then trimStart r else s
  end.

Definition trimEnd (s : jsstring) : jsstring := rev (trimStart (rev s)).

(** [String.prototype.trim]. *)
Definition trim (s : jsstring) : jsstring := trimEnd (trimStart s).

(** An input line made of white space only (the empty line included). *)
Definition whitespace_only (s : jsstring) : bool := forallb isWhiteSpace s.

(** Truthiness of a string: the empty string is falsy. *)
Definition truthy_string (s : jsstring) : bool :=
  match s with [] => false | _ :: _ => true end.

(* ================================================================== *)
(** ** JavaScript numbers *)

(** A Number: NaN, the infinities, or a finite value.  Finite doubles are
    rationals and [<], [>] and [===] on them are the rational comparisons;
    the two zeros compare equal and are not told apart. *)
Inductive JSNumber :=
| NaN
| NegInf
| Fin (q : Q)
| PosInf.

Definition isNaN (n : JSNumber) : bool :=
  match n with NaN => true | _ => false end.

(** [a < b]; false as soon as an operand is NaN. *)
Definition num_lt (a b : JSNumber) : bool :=
  match a, b with
  | NaN, _ | _, NaN => false
  | NegInf, NegInf => false
  | NegInf, _ => true
  | _, NegInf => false
  | PosInf, _ => false
  | Fin _, PosInf => true
  | Fin x, Fin y => match (x ?= y)%Q with Lt => true | _ => false end
  end.

(** [a > b]. *)
Definition num_gt (a b : JSNumber) : bool := num_lt b a.

(** [a === b] on Numbers; NaN is equal to nothing. *)
Definition num_seq (a b : JSNumber) : bool :=
  match a, b with
  | NegInf, NegInf | PosInf, PosInf => true
  | Fin x, Fin y => Qeq_bool x y
  | _, _ => false
  end.

Definition num_of_Z (z : Z) : JSNumber := Fin (inject_Z z).

(* ================================================================== *)
(** ** JavaScript values and errors *)

(** The values [JSON.parse] builds, and [undefined] for an absent
    property. *)
Inductive jsval :=
| JUndefined
| JNull
| JBool (b : bool)
| JNum (n : JSNumber)
| JStr (s : jsstring)
| JArr (items : list jsval)
| JObj (props : list (jsstring * jsval)).

Definition jsstring_eqb (a b : jsstring) : bool :=
  if list_eq_dec N.eq_dec a b then true else false.

(** The own property [k] of an object built by [JSON.parse]; of two
    members with the same name the later one is kept. *)
Fixpoint lookup (k : jsstring) (ps : list (jsstring * jsval))
  : option jsval :=
  match ps with
  | [] => None
  | (k', v) :: r =>
      match lookup k r with
      | Some w => Some w
      | None => if jsstring_eqb k k' then Some v else None
      end
  end.

(** Whether a parsed value converts to a string.  An object converts
    through the [toString] it inherits, to [[object Object]], unless it
    has a property [toString] of its own: that one is no function, and
    the conversion throws a TypeError.  An array joins the conversions of
    its elements, so it converts when they all do. *)
Fixpoint convertible (v : jsval) : bool :=
  match v with
  | JArr items => forallb convertible items
  | JObj props =>
      match lookup (lit "toString") props with
      | Some _ => false
      | None => true
      end
  | _ => true
  end.

(** The errors the program can meet. *)
Inductive JSError :=
| PlainError (message : jsstring)  (* new Error(message) *)
| SyntaxError                     (* thrown by JSON.parse *)
| TypeError                       (* destructuring null, a failed conversion *)
| ReferenceError (name : jsstring) (* an undeclared identifier *).

(* ================================================================== *)
(** ** JSON.parse *)

Inductive Parse (A : Type) :=
| Parsed (a : A) (rest : jsstring)
| Malformed
| OutOfFuel.
Arguments Parsed {A} a rest.
Arguments Malformed {A}.
Arguments OutOfFuel {A}.

(** JSON white space: space, tab, line feed, carriage return. *)
Definition isJSONSpace (c : N) : bool :=
  (c =? 32) || (c =? 9) || (c =? 10) || (c =? 13).

Fixpoint skip_ws (s : jsstring) : jsstring :=
  match s with
  | [] => []
  | c :: r => if isJSONSpace c then skip_ws r else s
  end.

Definition isDigit (c : N) : bool := (48 <=? c) && (c <=? 57).

Fixpoint take_digits (s : jsstring) : list N * jsstring :=
  match s with
  | [] => ([], [])
  | c :: r =>
      if isDigit c
      then let (ds, r') := take_digits r in (c :: ds, r')
      else ([], s)
  end.

Definition digits_value (ds : list N) : Z :=
  fold_left (fun acc d => (10 * acc + Z.of_N (d - 48))%Z) ds 0%Z.

(** [m * 10^e] as a rational in lowest terms. *)
Definition decimal (m e : Z) : Q :=
  if (0 <=? e)%Z
  then inject_Z (m * 10 ^ e)
  else Qred (Qmake m (Z.to_pos (10 ^ (- e)))).

(** The largest [e] with [2^e <= n/d]. *)
Definition floor_log2 (n d : positive) : Z :=
  let c := (Z.log2 (Zpos n) - Z.log2 (Zpos d))%Z in
  if (0 <=? c)%Z
  then if (Zpos d * 2 ^ c <=? Zpos n)%Z then c else (c - 1)%Z
  else if (Zpos d <=? Zpos n * 2 ^ (- c))%Z then c else (c - 1)%Z.

(** [n/d] rounded to the nearest integer, a half to the even one. *)
Definition round_half_even (n d : Z) : Z :=
  let q := (n / d)%Z in
  let r := (n mod d)%Z in
  match (2 * r ?= d)%Z with
  | Lt => q
  | Gt => (q + 1)%Z
  | Eq => if Z.even q then q else (q + 1)%Z
  end.

(** The double nearest to the positive rational [n/d] (IEEE 754 binary64,
    round to nearest, ties to even): a multiple [m * 2^k] with [m] of at
    most 53 bits and [k] no less than -1074, or Infinity from [2^1024]
    on. *)
Definition round_positive (n d : positive) : JSNumber :=
  let e := floor_log2 n d in
  let k := Z.max (e - 52) (-1074) in
  if (0 <=? k)%Z then
    let m := round_half_even (Zpos n) (Zpos d * 2 ^ k) in
    if (2 ^ 1024 <=? m * 2 ^ k)%Z then PosInf
    else Fin (inject_Z (m * 2 ^ k))
  else
    let m := round_half_even (Zpos n * 2 ^ (- k)) (Zpos d) in
    Fin (Qred (Qmake m (Z.to_pos (2 ^ (- k))))).

(** The Number a numeric literal of value [q] denotes. *)
Definition round_double (q : Q) : JSNumber :=
  match Qnum q with
  | Z0 => Fin 0
  | Zpos n => round_positive n (Qden q)
  | Zneg n =>
      match round_positive n (Qden q) with
      | Fin x => Fin (Qopp x)
      | _ => NegInf
      end
  end.

(** The integer part of a number: [0] alone, or a digit sequence that
    does not start with [0]. *)
Definition take_int (s : jsstring) : option (list N * jsstring) :=
  match s with
  | [] => None
  | c :: r =>
      if c =? 48 then Some ([c], r)
      else if isDigit c then Some (take_digits s)
      else None
  end.

(** The optional fraction: [.] followed by at least one digit. *)
Definition take_frac (s : jsstring) : option (list N * jsstring) :=
  match s with
  | c :: r =>
      if c =? 46 then
        match take_digits r with
        | ([], _) => None
        | (ds, r') => Some (ds, r')
        end
      else Some ([], s)
  | [] => Some ([], s)
  end.

(** The optional exponent: [e] or [E], an optional sign, at least one
    digit. *)
Definition take_exp (s : jsstring) : option (Z * jsstring) :=
  match s with
  | c :: r =>
      if (c =? 101) || (c =? 69) then
        let '(neg, r1) :=
          match r with
          | sg :: r' =>
              if sg =? 45 then (true, r')
              else if sg =? 43 then (false, r')
              else (false, r)
          | [] => (false, r)
          end in
        match take_digits r1 with
        | ([], _) => None
        | (ds, r2) =>
            Some ((if neg then - digits_value ds else digits_value ds)%Z, r2)
        end
      else Some (0%Z, s)
  | [] => Some (0%Z, s)
  end.

Definition parse_number (s : jsstring) : Parse jsval :=
  let '(neg, s1) :=
    match s with
    | c :: r => if c =? 45 then (true, r) else (false, s)
    | [] => (false, s)
    end in
  match take_int s1 with
  | None => Malformed
  | Some (ip, s2) =>
      match take_frac s2 with
      | None => Malformed
      | Some (fp, s3) =>
          match take_exp s3 with
          | None => Malformed
          | Some (ex, s4) =>
              let m := digits_value (ip ++ fp) in
              let m := if neg then (- m)%Z else m in
              Parsed
                (JNum (round_double
                         (decimal m (ex - Z.of_nat (List.length fp)))))
                s4
          end
      end
  end.

Definition hex_value (c : N) : option N :=
  if isDigit c then Some (c - 48)
  else if (97 <=? c) && (c <=? 102) then Some (c - 87)
  else if (65 <=? c) && (c <=? 70) then Some (c - 55)
  else None.

Definition hex4 (a b c d : N) : option N :=
  match hex_value a, hex_value b, hex_value c, hex_value d with
  | Some x, Some y, Some z, Some w => Some (((x * 16 + y) * 16 + z) * 16 + w)
  | _, _, _, _ => None
  end.

(** The character a one-letter escape stands for. *)
Definition unescape (c : N) : option N :=
  if c =? 34 then Some 34        (* quote *)
  else if c =? 92 then Some 92   (* backslash *)
  else if c =? 47 then Some 47   (* slash *)
  else if c =? 98 then Some 8    (* b: backspace *)
  else if c =? 102 then Some 12  (* f: form feed *)
  else if c =? 110 then Some 10  (* n: line feed *)
  else if c =? 114 then Some 13  (* r: carriage return *)
  else if c =? 116 then Some 9   (* t: tab *)
  else None.

(** The characters of a string literal, after its opening quote and up to
    its closing quote. *)
Fixpoint parse_chars (s : jsstring) (acc : jsstring) : Parse jsstring :=
  match s with
  | [] => Malformed
  | c :: r =>
      if c =? 34 then Parsed (rev acc) r
      else if c =? 92 then
        match r with
        | [] => Malformed
        | e :: r1 =>
            if e =? 117 then
              match r1 with
              | h1 :: h2 :: h3 :: h4 :: r2 =>
                  match hex4 h1 h2 h3 h4 with
                  | Some u => parse_chars r2 (u :: acc)
                  | None => Malformed
                  end
              | _ => Malformed
              end
            else
              match unescape e with
              | Some u => parse_chars r1 (u :: acc)
              | None => Malformed
              end
        end
      else if c <? 32 then Malformed
      else parse_chars r (c :: acc)
  end.

(** [strip_prefix p s] removes the keyword [p] from the front of [s]. *)
Fixpoint strip_prefix (p s : jsstring) : option jsstring :=
  match p, s with
  | [], _ => Some s
  | a :: p', b :: s' => if a =? b then strip_prefix p' s' else None
  | _ :: _, [] => None
  end.

(** Recursive descent on the JSON grammar.  The fuel bounds the depth of
    the calls; [JSON_parse] below provides more than any input can use
    (lemma [parse_value_fuel]). *)
Fixpoint parse_value (fuel : nat) (s : jsstring) : Parse jsval :=
  match fuel with
  | O => OutOfFuel
  | S f =>
      match skip_ws s with
      | [] => Malformed
      | c :: r =>
          if c =? 123 then                       (* { *)
            match skip_ws r with
            | [] => Malformed
            | c1 :: r1 =>
                if c1 =? 125 then Parsed (JObj []) r1
                else
                  match parse_members f (c1 :: r1) [] with
                  | Parsed ps r2 => Parsed (JObj ps) r2
                  | Malformed => Malformed
                  | OutOfFuel => OutOfFuel
                  end
            end
          else if c =? 91 then                   (* [ *)
            match skip_ws r with
            | [] => Malformed
            | c1 :: r1 =>
                if c1 =? 93 then Parsed (JArr []) r1
                else
                  match parse_elements f (c1 :: r1) [] with
                  | Parsed vs r2 => Parsed (JArr vs) r2
                  | Malformed => Malformed
                  | OutOfFuel => OutOfFuel
                  end
            end
          else if c =? 34 then                   (* a string *)
            match parse_chars r [] with
            | Parsed str r1 => Parsed (JStr str) r1
            | Malformed => Malformed
            | OutOfFuel => OutOfFuel
            end
          else if c =? 116 then                  (* true *)
            match strip_prefix (lit "true") (c :: r) with
            | Some r1 => Parsed (JBool true) r1
            | None => Malformed
            end
          else if c =? 102 then                  (* false *)
            match strip_prefix (lit "false") (c :: r) with
            | Some r1 => Parsed (JBool false) r1
            | None => Malformed
            end
          else if c =? 110 then                  (* null *)
            match strip_prefix (lit "null") (c :: r) with
            | Some r1 => Parsed JNull r1
            | None => Malformed
            end
          else parse_number (c :: r)
      end
  end

with parse_elements (fuel : nat) (s : jsstring) (acc : list jsval)
  : Parse (list jsval) :=
  match fuel with
  | O => OutOfFuel
  | S f =>
      match parse_value f s with
      | Parsed v r =>
          match skip_ws r with
          | [] => Malformed
          | c :: r1 =>
              if c =? 44 then parse_elements f r1 (v :: acc)
              else if c =? 93 then Parsed (rev (v :: acc)) r1
              else Malformed
          end
      | Malformed => Malformed
      | OutOfFuel => OutOfFuel
      end
  end

with parse_members (fuel : nat) (s : jsstring) (acc : list (jsstring * jsval))
  : Parse (list (jsstring * jsval)) :=
  match fuel with
  | O => OutOfFuel
  | S f =>
      match skip_ws s with
      | [] => Malformed
      | q :: r =>
          if q =? 34 then
            match parse_chars r [] with
            | Parsed key r1 =>
                match skip_ws r1 with
                | [] => Malformed
                | c :: r2 =>
                    if c =? 58 then
                      match parse_value f r2 with
                      | Parsed v r3 =>
                          match skip_ws r3 with
                          | [] => Malformed
                          | d :: r4 =>
                              if d =? 44 then
                                parse_members f r4 ((key, v) :: acc)
                              else if d =? 125 then
                                Parsed (rev ((key, v) :: acc)) r4
                              else Malformed
                          end
                      | Malformed => Malformed
                      | OutOfFuel => OutOfFuel
                      end
                    else Malformed
                end
            | Malformed => Malformed
            | OutOfFuel => OutOfFuel
            end
          else Malformed
      end
  end.

(** The result of a call: a value, or a thrown error. *)
Inductive Outcome (A : Type) :=
| Ret (a : A)
| Throw (e : JSError).
Arguments Ret {A} a.
Arguments Throw {A} e.

Definition parse_fuel (s : jsstring) : nat := 2 * List.length s + 2.

(** [JSON.parse(s)]: one value, surrounded by optional white space. *)
Definition JSON_parse (s : jsstring) : Outcome jsval :=
  match parse_value (parse_fuel s) s with
  | Parsed v rest =>
      match skip_ws rest with
      | [] => Ret v
      | _ :: _ => Throw SyntaxError
      end
  | Malformed => Throw SyntaxError
  | OutOfFuel => Throw SyntaxError
  end.

(* ================================================================== *)
(** ** JSON.stringify on a string *)

Definition hex_digit (n : N) : N := if n <? 10 then 48 + n else 87 + n.

(** The escape [\uXXXX] of a code unit, in lower-case hexadecimal. *)
Definition unicode_escape (c : N) : jsstring :=
  [92; 117; hex_digit (c / 4096); hex_digit ((c / 256) mod 16);
   hex_digit ((c / 16) mod 16); hex_digit (c mod 16)].

Definition isLeadSurrogate (c : N) : bool := (55296 <=? c) && (c <=? 56319).
Definition isTrailSurrogate (c : N) : bool := (56320 <=? c) && (c <=? 57343).

(** The quoting of one code unit that is not part of a surrogate pair. *)
Definition quote_unit (c : N) : jsstring :=
  if c =? 8 then [92; 98]
  else if c =? 9 then [92; 116]
  else if c =? 10 then [92; 110]
  else if c =? 12 then [92; 102]
  else if c =? 13 then [92; 114]
  else if c =? 34 then [92; 34]
  else if c =? 92 then [92; 92]
  else if (c <? 32) || isLeadSurrogate c || isTrailSurrogate c
       then unicode_escape c
  else [c].

Fixpoint quote_units (s : jsstring) : jsstring :=
  match s with
  | [] => []
  | c :: r =>
      match r with
      | d :: r' =>
          if isLeadSurrogate c && isTrailSurrogate d
          then c :: d :: quote_units r'
          else quote_unit c ++ quote_units r
      | [] => quote_unit c
      end
  end.

(** [JSON.stringify(s)] for a string [s]. *)
Definition JSON_stringify (s : jsstring) : jsstring :=
  dquote :: quote_units s ++ [dquote].

(* ================================================================== *)
(** ** Styled text (ansi-colors) *)

(** The styles of ansi-colors the program uses. *)
Inductive Style :=
| cyan | yellow | red
| magenta_bold | yellow_bold | red_bold.

(** A run of characters: a string, or the string a value or an error
    converts to when it is concatenated to one. *)
Inductive chunk :=
| Lit (s : jsstring)
| Shown (v : jsval)
| ShownError (e : JSError).

(** A piece of output, as it is or wrapped in the escape codes of a
    style.  A text stands for the concatenation of its pieces. *)
Inductive piece :=
| Plain (c : chunk)
| Styled (st : Style) (c : chunk).

Definition text := list piece.

(** The conversion [String(v)]: a string is itself. *)
Definition str (v : jsval) : chunk :=
  match v with
  | JStr s => Lit s
  | _ => Shown v
  end.

(** [v] concatenated to a string; the conversion of [v] may throw. *)
Definition show (v : jsval) : Outcome text :=
  if convertible v then Ret [Plain (str v)] else Throw TypeError.

(** A style function of ansi-colors applied to a string: the empty string
    stays empty, any other string is wrapped. *)
Definition paint_string (st : Style) (s : jsstring) : text :=
  match s with
  | [] => []
  | _ :: _ => [Styled st (Lit s)]
  end.

(** A style function of ansi-colors applied to [v]: the empty string for
    [''], [null] and [undefined], the wrapped conversion of [v] to a
    string otherwise; that conversion may throw. *)
Definition paint (st : Style) (v : jsval) : Outcome text :=
  match v with
  | JUndefined | JNull => Ret []
  | JStr s => Ret (paint_string st s)
  | _ => if convertible v then Ret [Styled st (str v)] else Throw TypeError
  end.

Record Palette := { info : Style; warning : Style; error : Style }.

(** The constant [COLORS] (lines 34-45). *)
Definition COLORS_client : Palette :=
  {| info := cyan; warning := yellow; error := red |}.
Definition COLORS_debugger : Palette :=
  {| info := magenta_bold; warning := yellow_bold; error := red_bold |}.

Definition newline : jsstring := [10].

(* ================================================================== *)
(** ** State, effects and the monad of the program *)

(** The completion callback the REPL hands to [eval] with a line; the
    number tells the callbacks of different lines apart. *)
Definition Callback := nat.

(** How a callback is called: [cb()], [cb(null, data)] or [cb(e)]. *)
Inductive CbArgs :=
| NoArgs
| Result (data : jsstring)
| Failure (e : JSError).

(** What the program does to the outside. *)
Inductive Event :=
| ConsoleLog (t : text)
| ConsoleError (e : JSError)
| WsSend (payload : jsstring)
| Invoke (cb : Callback) (args : CbArgs)
| ReplWrite (t : text)
| ReplError (e : JSError)
| DisplayPrompt
| ReplClose.

(** The mutable variables: the global [isPrompting] (line 46), the
    [finishCallback] of the connection (line 159), and whether the REPL
    [rl] of the connection has been closed. *)
Record State := {
  isPrompting : bool;
  finishCallback : option Callback;
  replClosed : bool
}.

(** A computation reads and writes the state, emits events, and returns
    or throws; what it did before throwing stays done. *)
Definition M (A : Type) : Type := State -> Outcome A * State * list Event.

Definition ret {A} (a : A) : M A := fun s => (Ret a, s, []).

Definition throw {A} (e : JSError) : M A := fun s => (Throw e, s, []).

Definition bind {A B} (m : M A) (k : A -> M B) : M B :=
  fun s =>
    match m s with
    | (Ret a, s1, t1) =>
        match k a s1 with
        | (r, s2, t2) => (r, s2, t1 ++ t2)
        end
    | (Throw e, s1, t1) => (Throw e, s1, t1)
    end.

Notation "x <- m ;; k" := (bind m (fun x => k))
  (at level 61, m at next level, right associativity).
Notation "m ;; k" := (bind m (fun _ => k))
  (at level 61, right associativity).

(** [try { m } catch (e) { h e }]. *)
Definition try_catch {A} (m : M A) (h : JSError -> M A) : M A :=
  fun s =>
    match m s with
    | (Ret a, s1, t1) => (Ret a, s1, t1)
    | (Throw e, s1, t1) =>
        match h e s1 with
        | (r, s2, t2) => (r, s2, t1 ++ t2)
        end
    end.

(** A pure call that may throw. *)
Definition lift {A} (o : Outcome A) : M A := fun s => (o, s, []).

Definition emit (e : Event) : M unit := fun s => (Ret tt, s, [e]).

Definition get_isPrompting : M bool := fun s => (Ret (isPrompting s), s, []).
Definition get_finishCallback : M (option Callback) :=
  fun s => (Ret (finishCallback s), s, []).
Definition get_replClosed : M bool := fun s => (Ret (replClosed s), s, []).

Definition set_isPrompting (b : bool) : M unit :=
  fun s => (Ret tt,
            {| isPrompting := b; finishCallback := finishCallback s;
               replClosed := replClosed s |}, []).
Definition set_finishCallback (c : option Callback) : M unit :=
  fun s => (Ret tt,
            {| isPrompting := isPrompting s; finishCallback := c;
               replClosed := replClosed s |}, []).
Definition set_replClosed (b : bool) : M unit :=
  fun s => (Ret tt,
            {| isPrompting := isPrompting s;
               finishCallback := finishCallback s; replClosed := b |}, []).

(** [if (c) m] without an else branch. *)
Definition when (c : bool) (m : M unit) : M unit := if c then m else ret tt.

Definition outcome_of {A} (r : Outcome A * State * list Event) : Outcome A :=
  fst (fst r).
Definition state_of {A} (r : Outcome A * State * list Event) : State :=
  snd (fst r).
Definition trace_of {A} (r : Outcome A * State * list Event) : list Event :=
  snd r.

(* ================================================================== *)
(** ** The runtime the program calls *)

Definition console_log (t : text) : M unit := emit (ConsoleLog t).
Definition console_error (e : JSError) : M unit := emit (ConsoleError e).

(** [ws.send(payload)] on the socket of an accepted connection: the
    payload goes on the wire (after the socket has closed the ws library
    drops it); no error is thrown. *)
Definition ws_send (payload : jsstring) : M unit := emit (WsSend payload).

(** [rl.displayPrompt()]. *)
Definition displayPrompt : M unit := emit DisplayPrompt.

(* ================================================================== *)
(** ** Logging helpers (lines 94-138) *)

(** [colorise(message, source, color)] (lines 96-98); [message] is the
    text the string concatenation yields. *)
Definition colorise (message : text) (source : jsstring) (color : Style)
  : text :=
  paint_string color (lit "[" ++ source ++ lit "] ") ++ message.

(** [safeLog(data)] (lines 99-101). *)
Definition safeLog (data : text) : M unit :=
  p <- get_isPrompting ;;
  console_log ((if p then [Plain (Lit newline)] else []) ++ data).

(** [v.k] for a parsed value other than [null]: only objects have the
    properties [message] and [level]. *)
Definition get_prop (k : jsstring) (v : jsval) : jsval :=
  match v with
  | JObj ps => match lookup k ps with Some w => w | None => JUndefined end
  | _ => JUndefined
  end.

(** [level === k] for the case labels of the switch. *)
Definition level_is (level : jsval) (k : Z) : bool :=
  match level with
  | JNum n => num_seq n (num_of_Z k)
  | _ => false
  end.

(** [discordColorise(data)] (lines 103-118). *)
Definition discordColorise (data : jsstring) : Outcome text :=
  match JSON_parse data with
  | Throw e => Throw e
  | Ret JNull => Throw TypeError
  | Ret v =>
      let message := get_prop (lit "message") v in
      let level := get_prop (lit "level") v in
      match
        (if level_is level 0 then paint (info COLORS_client) message
         else if level_is level 2 then paint (warning COLORS_client) message
         else if level_is level 3 then paint (error COLORS_client) message
         else show message)
      with
      | Ret message =>
          Ret (colorise message (lit "Vendetta") (info COLORS_client))
      | Throw e => Throw e
      end
  end.

(** [discordLog(message)] (lines 119-121). *)
Definition discordLog (silentLvl : JSNumber) (message : jsstring) : M unit :=
  if num_seq silentLvl (num_of_Z 2)
  then safeLog [Plain (Lit message)]
  else (t <- lift (discordColorise message) ;; safeLog t).

(** [debuggerColorise(message)] (lines 123-125). *)
Definition debuggerColorise (message : jsstring) : text :=
  colorise [Plain (Lit message)] (lit "Debugger") (info COLORS_debugger).

(** [debuggerLog(message)] (lines 126-128); at level 2 the argument of
    [safeLog] is the undeclared identifier [messag]. *)
Definition debuggerLog (silentLvl : JSNumber) (message : jsstring) : M unit :=
  if num_seq silentLvl (num_of_Z 2)
  then throw (ReferenceError (lit "messag"))
  else safeLog (debuggerColorise message).

(** [debuggerWarning(message)] (lines 129-131). *)
Definition debuggerWarning (message : jsstring) : M unit :=
  safeLog (colorise [Plain (Lit message)] (lit "Debugger")
             (warning COLORS_debugger)).

(** What a formatter hands back: an error object, a string, or
    [undefined]. *)
Inductive Written :=
| WError (e : JSError)
| WText (t : text)
| WUndefined.

(** [debuggerError(error, isReturning)] (lines 132-138). *)
Definition debuggerError (err : JSError) (isReturning : bool) : M Written :=
  safeLog (colorise [Plain (Lit (lit "Error"))] (lit "Debugger")
             (error COLORS_debugger)) ;;
  if isReturning then ret (WError err)
  else (console_error err ;; ret WUndefined).

(* ================================================================== *)
(** ** The REPL of a connection (lines 178-206) *)

(** The value the REPL passes to [writer]. *)
Inductive ReplValue :=
| RError (e : JSError)   (* [data instanceof Error] *)
| RData (data : jsstring).

(** [writer] (lines 196-200). *)
Definition writer (data : ReplValue) : M Written :=
  match data with
  | RError e => debuggerError e true
  | RData d => t <- lift (discordColorise d) ;; ret (WText t)
  end.

(** The string a written value becomes in [writer(ret) + '\n']. *)
Definition written_text (w : Written) : text :=
  match w with
  | WError e => [Plain (ShownError e)]
  | WText t => t
  | WUndefined => [Plain (Shown JUndefined)]
  end.

(** What the callback of Node's REPL does when [eval] completes:
    [cb()] redraws the prompt; [cb(null, data)] writes [writer(data)] and
    a line feed to the output, then redraws the prompt; [cb(e)] has the
    REPL report [e] and redraw the prompt. *)
Definition repl_finish (args : CbArgs) : M unit :=
  match args with
  | NoArgs => displayPrompt
  | Result data =>
      w <- writer (RData data) ;;
      emit (ReplWrite (written_text w ++ [Plain (Lit newline)])) ;;
      displayPrompt
  | Failure e => emit (ReplError e) ;; displayPrompt
  end.

(** A call of the callback [cb]. *)
Definition invoke (cb : Callback) (args : CbArgs) : M unit :=
  emit (Invoke cb args) ;; repl_finish args.

(** The request sent for an input line (lines 186-188). *)
Definition wire (input : jsstring) : jsstring :=
  lit "const res=(0, eval)(" ++ JSON_stringify input ++
  lit ");let out=vendetta.metro.findByProps(" ++ [dquote] ++ lit "inspect" ++
  [dquote] ++ lit ").inspect(res,{showHidden:true});if(out!==" ++ [dquote] ++
  lit "undefined" ++ [dquote] ++ lit ")console.log(out);res".

(** [eval] of the REPL (lines 179-195). *)
Definition repl_eval (input : jsstring) (cb : Callback) : M unit :=
  try_catch
    (if negb (truthy_string (trim input)) then invoke cb NoArgs
     else
       set_isPrompting false ;;
       ws_send (wire input) ;;
       set_finishCallback (Some cb))
    (fun e => invoke cb (Failure e)).

(** The listener of [rl]'s close event (lines 204-206). *)
Definition on_rl_close (silentLvl : JSNumber) : M unit :=
  when (num_lt silentLvl (num_of_Z 2))
    (debuggerLog silentLvl (lit "Closing debugger, press Ctrl+C to exit")).

(** [rl.close()], also what the operator's end of input does: a REPL that
    is still open closes and emits its close event. *)
Definition rl_close (silentLvl : JSNumber) : M unit :=
  closed <- get_replClosed ;;
  if closed then ret tt
  else
    set_replClosed true ;;
    emit ReplClose ;;
    on_rl_close silentLvl.

(* ================================================================== *)
(** ** The handlers of the connection (lines 154-214) *)

(** The listener of the socket's message event (lines 162-175). *)
Definition on_message (silentLvl : JSNumber) (data : jsstring) : M unit :=
  try_catch
    (cb <- get_finishCallback ;;
     match cb with
     | Some f =>
         invoke f (Result data) ;;
         set_finishCallback None
     | None => discordLog silentLvl data
     end)
    (fun e => debuggerError e false ;; ret tt) ;;
  set_isPrompting true ;;
  displayPrompt.

(** The listener of the socket's close event (lines 208-212). *)
Definition on_ws_close (silentLvl : JSNumber) : M unit :=
  when (num_lt silentLvl (num_of_Z 2))
    (debuggerLog silentLvl (lit "Websocket has been closed")) ;;
  set_isPrompting false ;;
  rl_close silentLvl.

(** [repl.start(...)]: a new REPL, open, which shows its prompt. *)
Definition repl_start : M unit :=
  set_replClosed false ;; displayPrompt.

(** The listener of the server's connection event (lines 154-214). *)
Definition on_connection (silentLvl : JSNumber)
    (onConnectedCode : option jsstring) : M unit :=
  when (num_lt silentLvl (num_of_Z 2))
    (debuggerLog silentLvl
       (lit "Connected to Discord over websocket, starting debug session")) ;;
  set_isPrompting false ;;
  set_finishCallback None ;;
  repl_start ;;
  set_isPrompting true ;;
  match onConnectedCode with
  | Some code => when (truthy_string code) (ws_send code)
  | None => ret tt
  end.

(** The listener of the server's listening event (lines 150-153);
    [port] is the text of [wss.address().port]. *)
Definition on_listening (silentLvl : JSNumber) (port : jsstring) : M unit :=
  when (num_lt silentLvl (num_of_Z 2))
    (debuggerLog silentLvl (lit "Listening for connections on port " ++ port)).

(* ================================================================== *)
(** ** Start-up (lines 71-92 and 140-146) *)

Record Config := {
  silentLvl : JSNumber;
  wssPort : JSNumber;
  onConnectedCode : option jsstring
}.

Definition quoted (s : string) : jsstring := dquote :: lit s ++ [dquote].

Definition msg_silent_number : jsstring :=
  lit "The option " ++ quoted "silent" ++ lit " should be a number.".
Definition msg_silent_range : jsstring :=
  lit "The option " ++ quoted "silent" ++ lit " should in range 0-2.".
Definition msg_port_number : jsstring :=
  lit "The option " ++ quoted "port" ++ lit " should be a number.".
Definition msg_not_accessible : jsstring :=
  lit "The path in " ++ quoted "onConnectedPath" ++ lit " is not accessible".
Definition msg_file_empty : jsstring :=
  lit "The file in " ++ quoted "onConnectedPath" ++ lit " is empty".

(** The welcome message (lines 143-145). *)
Definition banner : jsstring :=
  lit "Welcome to the unofficial Vendetta debugger." ++ newline ++
  lit "Press Ctrl+C to exit." ++ newline ++
  lit "How to connect to the debugger: https://github.com/Meqativ/vendetta-debug/blob/master/README.md#connecting".

(** The optional file (lines 82-92).  [access path] is the error with
    which [fs.access] rejects, if it does; [readFile path] is what
    [fs.readFile] gives: the contents, or the error it rejects with.  A
    rejected access is caught and the process exits, for which [None] is
    returned; a rejected read is not caught. *)
Definition read_onConnected (onConnectedPath : option jsstring)
    (access : jsstring -> option JSError)
    (readFile : jsstring -> Outcome jsstring)
  : M (option (option jsstring)) :=
  match onConnectedPath with
  | Some path =>
      if truthy_string path then
        match access path with
        | Some e =>
            console_log [Plain (Lit msg_not_accessible)] ;;
            console_error e ;;
            ret None
        | None =>
            contents <- lift (readFile path) ;;
            when (negb (truthy_string contents))
              (debuggerWarning msg_file_empty) ;;
            ret (Some (Some contents))
        end
      else ret (Some None)
  | None => ret (Some None)
  end.

(** The module body from the parsing of the options to the welcome
    message.  [silent] and [port] are the Numbers [Number(...)] makes of
    the two options.  A thrown error ends the process, and so does the
    exit in [read_onConnected], for which [None] is returned. *)
Definition startup (silent port : JSNumber)
    (onConnectedPath : option jsstring)
    (access : jsstring -> option JSError)
    (readFile : jsstring -> Outcome jsstring)
  : M (option Config) :=
  if isNaN silent then throw (PlainError msg_silent_number)
  else if num_gt silent (num_of_Z 2) || num_lt silent (num_of_Z 0)
  then throw (PlainError msg_silent_range)
  else if isNaN port then throw (PlainError msg_port_number)
  else
    code <- read_onConnected onConnectedPath access readFile ;;
    match code with
    | None => ret None
    | Some c =>
        when (num_lt silent (num_of_Z 1))
          (console_log [Plain (Lit banner)]) ;;
        ret (Some {| silentLvl := silent; wssPort := port;
                     onConnectedCode := c |})
    end.

(** The variables before the server has accepted a connection. *)
Definition initial : State :=
  {| isPrompting := false; finishCallback := None; replClosed := false |}.

(* ================================================================== *)
(** ** A session: the events of one connection *)

Inductive SessionEvent :=
| Line (input : jsstring) (cb : Callback)  (* the REPL calls eval *)
| Message (data : jsstring)                (* the socket's message event *)
| EndOfInput                               (* the operator closes the REPL *)
| SocketClosed.                            (* the socket's close event *)

(** The listener an event runs.  A closed REPL reads no more lines. *)
Definition handle (lvl : JSNumber) (ev : SessionEvent) : M unit :=
  match ev with
  | Line input cb =>
      closed <- get_replClosed ;;
      if closed then ret tt else repl_eval input cb
  | Message data => on_message lvl data
  | EndOfInput => rl_close lvl
  | SocketClosed => on_ws_close lvl
  end.

(** The events of a connection, in order.  An error that escapes a
    listener ends the process; the socket delivers nothing after its
    close event. *)
Fixpoint run (lvl : JSNumber) (evs : list SessionEvent) : M unit :=
  match evs with
  | [] => ret tt
  | ev :: rest =>
      handle lvl ev ;;
      match ev with
      | SocketClosed => ret tt
      | _ => run lvl rest
      end
  end.

(** A connection and the events that follow it. *)
Definition session (lvl : JSNumber) (code : option jsstring)
    (evs : list SessionEvent) : M unit :=
  on_connection lvl code ;; run lvl evs.

(** The states a connection goes through before its socket closes. *)
Inductive reachable (lvl : JSNumber) (code : option jsstring)
  : State -> Prop :=
| reach_connected (s0 : State) :
    reachable lvl code (state_of (on_connection lvl code s0))
| reach_step (s : State) (ev : SessionEvent) :
    reachable lvl code s ->
    ev <> SocketClosed ->
    reachable lvl code (state_of (handle lvl ev s)).

(** The payloads sent over the socket, in order. *)
Fixpoint sends (t : list Event) : list jsstring :=
  match t with
  | [] => []
  | WsSend p :: r => p :: sends r
  | _ :: r => sends r
  end.

(** The calls of callbacks, in order. *)
Fixpoint invocations (t : list Event) : list (Callback * CbArgs) :=
  match t with
  | [] => []
  | Invoke cb a :: r => (cb, a) :: invocations r
  | _ :: r => invocations r
  end.

(** The input lines the operator submits in [evs]. *)
Fixpoint lines (evs : list SessionEvent) : list jsstring :=
  match evs with
  | [] => []
  | Line input _ :: r => input :: lines r
  | _ :: r => lines r
  end.

(** The newline [safeLog] puts first while the prompt is shown. *)
Definition prefix (s : State) : text :=
  if isPrompting s then [Plain (Lit newline)] else [].

(** The envelope [{"message":"x","level":3}]. *)
Definition envelope_x_3 : jsstring :=
  lit "{" ++ quoted "message" ++ lit ":" ++ quoted "x" ++ lit "," ++
  quoted "level" ++ lit ":3}".

(** The line [debuggerError] logs. *)
Definition error_line : text :=
  [Styled red_bold (Lit (lit "[Debugger] ")); Plain (Lit (lit "Error"))].

(** The state after the message listener: the prompt is shown, the
    callback slot holds [c]. *)
Definition with_reply (s : State) (c : option Callback) : State :=
  {| isPrompting := true; finishCallback := c; replClosed := replClosed s |}.

(** The state once the REPL is closed. *)
Definition with_repl_closed (s : State) : State :=
  {| isPrompting := isPrompting s; finishCallback := finishCallback s;
     replClosed := true |}.

(** The state in which a connection handler leaves the variables. *)
Definition connected : State :=
  {| isPrompting := true; finishCallback := None; replClosed := false |}.

(** The notice a listener logs below level 2. *)
Definition notice (lvl : JSNumber) (s : State) (m : jsstring) : list Event :=
  if num_lt lvl (num_of_Z 2)
  then [ConsoleLog (prefix s ++ debuggerColorise m)]
  else [].

(* ================================================================== *)
(** ** The filter on process warnings (lines 1-16) *)







(* ================================================================== *)
(** ** Observations on events and traces *)

(** The requests a run of [evs] is due to send, the REPL being closed or
    not at its start: one for each line that is not blank, read while the
    REPL is open and before the socket closes. *)
Fixpoint requests (closed : bool) (evs : list SessionEvent)
  : list jsstring :=
  match evs with
  | [] => []
  | Line input _ :: r =>
      if closed || negb (truthy_string (trim input))
      then requests closed r
      else wire input :: requests closed r
  | Message _ :: r => requests closed r
  | EndOfInput :: r => requests true r
  | SocketClosed :: _ => []
  end.

(** The event ends the REPL. *)
Definition is_closing (ev : SessionEvent) : bool :=
  match ev with
  | EndOfInput | SocketClosed => true
  | _ => false
  end.

Definition is_socket_closed (ev : SessionEvent) : bool :=
  match ev with
  | SocketClosed => true
  | _ => false
  end.

(** How often the REPL closed. *)
Fixpoint closes (t : list Event) : nat :=
  match t with
  | [] => O
  | ReplClose :: r => S (closes r)
  | _ :: r => closes r
  end.

(** The tag [discordColorise] puts first. *)
Definition vendetta_tag : piece := Styled cyan (Lit (lit "[Vendetta] ")).

(* ================================================================== *)
(** * Properties *)

(** ** Numbers, logging and parsing *)

Lemma num_lt_not_seq (a b : JSNumber) :
  num_lt a b = true -> num_seq a b = false.
Proof.
  destruct a as [| |x|], b as [| |y|]; simpl; try congruence.
  destruct (x ?= y)%Q eqn:C; try discriminate. intros _.
  destruct (Qeq_bool x y) eqn:E; [|reflexivity].
  apply Qeq_bool_iff in E. apply Qeq_alt in E. congruence.
Qed.

Lemma safeLog_run (t : text) (s : State) :
  safeLog t s = (Ret tt, s, [ConsoleLog (prefix s ++ t)]).
Proof. reflexivity. Qed.

(** A call of [debuggerLog] under the guard [silentLvl < 2] logs its
    notice and returns. *)
Lemma guarded_debuggerLog (lvl : JSNumber) (m : jsstring) (s : State) :
  when (num_lt lvl (num_of_Z 2)) (debuggerLog lvl m) s =
  (Ret tt, s, notice lvl s m).
Proof.
  unfold when, debuggerLog, notice.
  destruct (num_lt lvl (num_of_Z 2)) eqn:L; [|reflexivity].
  rewrite (num_lt_not_seq _ _ L). apply safeLog_run.
Qed.

Lemma JSON_parse_throws (d : jsstring) (e : JSError) :
  JSON_parse d = Throw e -> e = SyntaxError.
Proof.
  unfold JSON_parse.
  destruct (parse_value (parse_fuel d) d) as [v rest| |];
    [destruct (skip_ws rest)|..]; congruence.
Qed.

Lemma show_throws (v : jsval) (e : JSError) :
  show v = Throw e -> e = TypeError.
Proof.
  unfold show. destruct (convertible v); intros H; inversion H; reflexivity.
Qed.

Lemma paint_throws (st : Style) (v : jsval) (e : JSError) :
  paint st v = Throw e -> e = TypeError.
Proof.
  unfold paint. destruct v; try discriminate;
    match goal with
    | |- context [convertible ?x] => destruct (convertible x)
    end; intros H; inversion H; reflexivity.
Qed.

(** The text the switch on the level makes of the message. *)
Lemma message_text_throws (level message : jsval) (e : JSError) :
  (if level_is level 0 then paint (info COLORS_client) message
   else if level_is level 2 then paint (warning COLORS_client) message
   else if level_is level 3 then paint (error COLORS_client) message
   else show message) = Throw e ->
  e = TypeError.
Proof.
  destruct (level_is level 0); [apply paint_throws|].
  destruct (level_is level 2); [apply paint_throws|].
  destruct (level_is level 3); [apply paint_throws|apply show_throws].
Qed.

Lemma discordColorise_throws (d : jsstring) (e : JSError) :
  discordColorise d = Throw e -> e = SyntaxError \/ e = TypeError.
Proof.
  unfold discordColorise.
  destruct (JSON_parse d) as [v|e'] eqn:P.
  - destruct v;
      try (intros H; inversion H; auto; fail);
      match goal with
      | |- context [match ?c with Ret _ => _ | Throw _ => _ end] =>
          destruct c as [m|e''] eqn:C
      end;
      intros H; inversion H; subst; right;
      eapply message_text_throws; eauto.
  - intros H; inversion H; subst. left. eapply JSON_parse_throws; eauto.
Qed.

Lemma paint_convertible (st : Style) (v : jsval) :
  convertible v = true -> exists body, paint st v = Ret body.
Proof.
  intros H. unfold paint.
  destruct v; try (eexists; reflexivity); rewrite H; eexists; reflexivity.
Qed.

Lemma paint_inconvertible (st : Style) (v : jsval) :
  convertible v = false -> paint st v = Throw TypeError.
Proof.
  intros H. destruct v; try (cbn in H; discriminate H);
    unfold paint; rewrite H; reflexivity.
Qed.

(** The switch on the level yields a text exactly when the message
    converts to a string. *)
Lemma message_text_outcome (level message : jsval) :
  (convertible message = true ->
   exists body,
     (if level_is level 0 then paint (info COLORS_client) message
      else if level_is level 2 then paint (warning COLORS_client) message
      else if level_is level 3 then paint (error COLORS_client) message
      else show message) = Ret body) /\
  (convertible message = false ->
   (if level_is level 0 then paint (info COLORS_client) message
    else if level_is level 2 then paint (warning COLORS_client) message
    else if level_is level 3 then paint (error COLORS_client) message
    else show message) = Throw TypeError).
Proof.
  split; intros H.
  - destruct (level_is level 0); [apply paint_convertible, H|].
    destruct (level_is level 2); [apply paint_convertible, H|].
    destruct (level_is level 3); [apply paint_convertible, H|].
    unfold show. rewrite H. eexists. reflexivity.
  - destruct (level_is level 0); [apply paint_inconvertible, H|].
    destruct (level_is level 2); [apply paint_inconvertible, H|].
    destruct (level_is level 3); [apply paint_inconvertible, H|].
    unfold show. rewrite H. reflexivity.
Qed.

(** The formatter on a payload that parses to a value other than
    [null]. *)
Lemma discordColorise_parsed (d : jsstring) (v : jsval) :
  JSON_parse d = Ret v ->
  v <> JNull ->
  discordColorise d =
  match
    (if level_is (get_prop (lit "level") v) 0
     then paint cyan (get_prop (lit "message") v)
     else if level_is (get_prop (lit "level") v) 2
     then paint yellow (get_prop (lit "message") v)
     else if level_is (get_prop (lit "level") v) 3
     then paint red (get_prop (lit "message") v)
     else show (get_prop (lit "message") v))
  with
  | Ret body => Ret (vendetta_tag :: body)
  | Throw e => Throw e
  end.
Proof.
  intros P N. unfold discordColorise. rewrite P.
  destruct v; try congruence; reflexivity.
Qed.

(** ** The message listener, case by case *)

Lemma on_message_awaiting lvl data s cb :
  finishCallback s = Some cb ->
  on_message lvl data s =
  match discordColorise data with
  | Ret t =>
      (Ret tt, with_reply s None,
       [Invoke cb (Result data); ReplWrite (t ++ [Plain (Lit newline)]);
        DisplayPrompt; DisplayPrompt])
  | Throw e =>
      (Ret tt, with_reply s (Some cb),
       [Invoke cb (Result data); ConsoleLog (prefix s ++ error_line);
        ConsoleError e; DisplayPrompt])
  end.
Proof.
  intros H. destruct s as [p f c]. simpl in H. subst f.
  unfold on_message, try_catch, bind, get_finishCallback, invoke, repl_finish,
    writer, lift, emit, set_finishCallback, set_isPrompting, displayPrompt,
    debuggerError, ret, console_error, with_reply.
  simpl.
  destruct (discordColorise data); reflexivity.
Qed.

Lemma on_message_idle lvl data s :
  finishCallback s = None ->
  on_message lvl data s =
  if num_seq lvl (num_of_Z 2) then
    (Ret tt, with_reply s None,
     [ConsoleLog (prefix s ++ [Plain (Lit data)]); DisplayPrompt])
  else
    match discordColorise data with
    | Ret t =>
        (Ret tt, with_reply s None,
         [ConsoleLog (prefix s ++ t); DisplayPrompt])
    | Throw e =>
        (Ret tt, with_reply s None,
         [ConsoleLog (prefix s ++ error_line); ConsoleError e; DisplayPrompt])
    end.
Proof.
  intros H. destruct s as [p f c]. simpl in H. subst f.
  unfold on_message, try_catch, bind, get_finishCallback, discordLog, lift,
    emit, set_finishCallback, set_isPrompting, displayPrompt,
    debuggerError, ret, console_error, with_reply.
  simpl.
  destruct (num_seq lvl (num_of_Z 2)); [reflexivity|].
  destruct (discordColorise data); reflexivity.
Qed.

(** The listener returns, whatever the message and the state, and leaves
    the prompt flag set. *)
Lemma on_message_returns lvl data s :
  outcome_of (on_message lvl data s) = Ret tt /\
  isPrompting (state_of (on_message lvl data s)) = true.
Proof.
  destruct (finishCallback s) as [cb|] eqn:F.
  - rewrite (on_message_awaiting lvl data s cb F).
    destruct (discordColorise data); split; reflexivity.
  - rewrite (on_message_idle lvl data s F).
    destruct (num_seq lvl (num_of_Z 2)); [split; reflexivity|].
    destruct (discordColorise data); split; reflexivity.
Qed.

(** ** The REPL and the other listeners *)

Lemma rl_close_run lvl s :
  rl_close lvl s =
  (Ret tt, with_repl_closed s,
   if replClosed s then []
   else ReplClose ::
        notice lvl (with_repl_closed s)
          (lit "Closing debugger, press Ctrl+C to exit")).
Proof.
  destruct s as [p f c].
  unfold rl_close, bind, get_replClosed, on_rl_close. simpl.
  destruct c; [reflexivity|].
  unfold set_replClosed, emit. simpl.
  rewrite guarded_debuggerLog. reflexivity.
Qed.

Lemma on_ws_close_run lvl s :
  on_ws_close lvl s =
  (Ret tt,
   {| isPrompting := false; finishCallback := finishCallback s;
      replClosed := true |},
   notice lvl s (lit "Websocket has been closed") ++
   if replClosed s then []
   else ReplClose ::
        notice lvl
          {| isPrompting := false; finishCallback := finishCallback s;
             replClosed := true |}
          (lit "Closing debugger, press Ctrl+C to exit")).
Proof.
  unfold on_ws_close, bind. rewrite guarded_debuggerLog.
  unfold set_isPrompting. rewrite rl_close_run.
  destruct s as [p f c]. simpl. destruct c; reflexivity.
Qed.

Lemma on_connection_run lvl code s :
  on_connection lvl code s =
  (Ret tt, connected,
   notice lvl s
     (lit "Connected to Discord over websocket, starting debug session") ++
   DisplayPrompt ::
   match code with
   | Some c => if truthy_string c then [WsSend c] else []
   | None => []
   end).
Proof.
  unfold on_connection, bind. rewrite guarded_debuggerLog.
  destruct s as [p f c]. simpl.
  destruct code as [c'|]; [destruct (truthy_string c')|]; reflexivity.
Qed.

Lemma on_listening_run lvl port s :
  on_listening lvl port s =
  (Ret tt, s, notice lvl s (lit "Listening for connections on port " ++ port)).
Proof. unfold on_listening. apply guarded_debuggerLog. Qed.

Lemma repl_eval_blank input cb s :
  trim input = [] ->
  repl_eval input cb s = (Ret tt, s, [Invoke cb NoArgs; DisplayPrompt]).
Proof.
  intros H. unfold repl_eval, try_catch. rewrite H. reflexivity.
Qed.

Lemma repl_eval_command input cb s :
  trim input <> [] ->
  repl_eval input cb s =
  (Ret tt,
   {| isPrompting := false; finishCallback := Some cb;
      replClosed := replClosed s |},
   [WsSend (wire input)]).
Proof.
  intros H. unfold repl_eval, try_catch.
  destruct (trim input) as [|c r]; [congruence|]. reflexivity.
Qed.

(** ** JSON.parse on the payloads used below *)

Example parse_envelope :
  JSON_parse envelope_x_3 =
  Ret (JObj [(lit "message", JStr (lit "x"));
             (lit "level", JNum (num_of_Z 3))]).
Proof. reflexivity. Qed.

Example parse_not_json : JSON_parse (lit "hello") = Throw SyntaxError.
Proof. reflexivity. Qed.

Example parse_numbers :
  JSON_parse (lit " [1, 2.50, -0, 1e2, 15E-1, 01] ") = Throw SyntaxError /\
  JSON_parse (lit " [1, 2.50, -0, 1e2, 15E-1] ") =
  Ret (JArr [JNum (Fin 1); JNum (Fin (5 # 2)); JNum (Fin 0); JNum (Fin 100);
             JNum (Fin (3 # 2))]).
Proof. split; reflexivity. Qed.

(** Number literals denote the nearest double. *)
Example parse_rounds_to_double :
  JSON_parse (lit "3.0000000000000000001") = Ret (JNum (num_of_Z 3)) /\
  JSON_parse (lit "1e-400") = Ret (JNum (num_of_Z 0)) /\
  JSON_parse (lit "9007199254740993") = Ret (JNum (num_of_Z 9007199254740992)) /\
  JSON_parse (lit "0.1") =
  Ret (JNum (Fin (3602879701896397 # 36028797018963968))) /\
  JSON_parse (lit "1e309") = Ret (JNum PosInf) /\
  JSON_parse (lit "-1e309") = Ret (JNum NegInf).
Proof. repeat split; vm_compute; reflexivity. Qed.

Example colorise_rounded_level :
  discordColorise
    (lit "{" ++ quoted "message" ++ lit ":" ++ quoted "x" ++ lit "," ++
     quoted "level" ++ lit ":3.0000000000000000001}") =
  Ret [Styled cyan (Lit (lit "[Vendetta] ")); Styled red (Lit (lit "x"))].
Proof. vm_compute. reflexivity. Qed.

Example colorise_unconvertible_message :
  discordColorise
    (lit "{" ++ quoted "message" ++ lit ":{" ++ quoted "toString" ++
     lit ":0}}") = Throw TypeError /\
  discordColorise
    (lit "{" ++ quoted "message" ++ lit ":{" ++ quoted "valueOf" ++
     lit ":0}}") =
  Ret [Styled cyan (Lit (lit "[Vendetta] "));
       Plain (Shown (JObj [(lit "valueOf", JNum (num_of_Z 0))]))].
Proof. split; vm_compute; reflexivity. Qed.

Example colorise_null_throws : discordColorise (lit "null") = Throw TypeError.
Proof. reflexivity. Qed.

Example colorise_plain_level :
  discordColorise
    (lit "{" ++ quoted "message" ++ lit ":" ++ quoted "2" ++ lit "," ++
     quoted "level" ++ lit ":1}") =
  Ret [Styled cyan (Lit (lit "[Vendetta] ")); Plain (Lit (lit "2"))].
Proof. reflexivity. Qed.

Example wire_of_line :
  wire (lit "1+1") =
  lit "const res=(0, eval)(" ++ quoted "1+1" ++
  lit ");let out=vendetta.metro.findByProps(" ++ quoted "inspect" ++
  lit ").inspect(res,{showHidden:true});if(out!==" ++ quoted "undefined" ++
  lit ")console.log(out);res".
Proof. reflexivity. Qed.

(** ** Number literals *)

Section NumberLiterals.

Local Open Scope Z_scope.

Lemma round_half_even_exact (n : Z) : round_half_even n 1 = n.
Proof.
  unfold round_half_even. rewrite Z.div_1_r, Z.mod_1_r. reflexivity.
Qed.

Lemma round_positive_integer (n : positive) :
  Zpos n < 2 ^ 53 -> round_positive n 1 = Fin (inject_Z (Zpos n)).
Proof.
  intros B.
  assert (L0 : 0 <= Z.log2 (Zpos n)) by apply Z.log2_nonneg.
  assert (L1 : Z.log2 (Zpos n) < 53) by (apply Z.log2_lt_pow2; lia).
  assert (S : 2 ^ Z.log2 (Zpos n) <= Zpos n) by (apply Z.log2_spec; lia).
  unfold round_positive, floor_log2.
  change (Z.log2 1) with 0. rewrite Z.sub_0_r.
  replace (0 <=? Z.log2 (Zpos n)) with true by (symmetry; apply Z.leb_le; lia).
  replace (1 * 2 ^ Z.log2 (Zpos n) <=? Zpos n) with true
    by (symmetry; apply Z.leb_le; lia).
  cbv zeta.
  rewrite Z.max_l by lia.
  destruct (0 <=? Z.log2 (Zpos n) - 52) eqn:K.
  - apply Z.leb_le in K. assert (E : Z.log2 (Zpos n) - 52 = 0) by lia.
    rewrite E. change (2 ^ 0) with 1. rewrite !Z.mul_1_r.
    rewrite round_half_even_exact.
    replace (2 ^ 1024 <=? Zpos n) with false; [reflexivity|].
    symmetry. apply Z.leb_gt.
    apply Z.lt_trans with (2 ^ 53); [exact B|]. reflexivity.
  - apply Z.leb_gt in K. rewrite round_half_even_exact. f_equal.
    set (j := - (Z.log2 (Zpos n) - 52)).
    assert (J : 0 < 2 ^ j) by (apply Z.pow_pos_nonneg; unfold j; lia).
    rewrite <- (Qcanon.Qred_identity (inject_Z (Zpos n)))
      by (apply Z.gcd_1_r).
    apply Qred_complete. unfold Qeq, inject_Z. cbn [Qnum Qden].
    rewrite Z2Pos.id by exact J. ring.
Qed.

(** A whole number of less than 54 bits is a double: its literal denotes
    it exactly. *)
Lemma round_double_integer (z : Z) :
  Z.abs z < 2 ^ 53 -> round_double (inject_Z z) = num_of_Z z.
Proof.
  intros B. destruct z as [|n|n]; [reflexivity| |].
  - apply round_positive_integer. exact B.
  - unfold round_double. cbn [inject_Z Qnum Qden].
    rewrite round_positive_integer by exact B. reflexivity.
Qed.

End NumberLiterals.

(** ** The fuel of the parser *)

Section ParserFuel.

Local Open Scope nat_scope.

Lemma skip_ws_length (s : jsstring) :
  List.length (skip_ws s) <= List.length s.
Proof.
  induction s as [|c r IH]; simpl; [lia|].
  destruct (isJSONSpace c); simpl; lia.
Qed.

Lemma skip_ws_cons (s r : jsstring) (c : N) :
  skip_ws s = c :: r -> List.length r < List.length s.
Proof.
  intros H. pose proof (skip_ws_length s) as L. rewrite H in L.
  simpl in L. lia.
Qed.

Lemma take_digits_length (s : jsstring) (ds : list N) (r : jsstring) :
  take_digits s = (ds, r) -> List.length r <= List.length s.
Proof.
  revert ds r. induction s as [|c s IH]; simpl; intros ds r H.
  - inversion H. simpl. lia.
  - destruct (isDigit c).
    + destruct (take_digits s) as [ds' r'] eqn:T. inversion H; subst.
      specialize (IH ds' r eq_refl). lia.
    + inversion H. simpl. lia.
Qed.

Lemma take_int_length (s : jsstring) (ds : list N) (r : jsstring) :
  take_int s = Some (ds, r) -> List.length r < List.length s.
Proof.
  unfold take_int. destruct s as [|c s]; [discriminate|].
  destruct (c =? 48)%N.
  - intros H. inversion H. simpl. lia.
  - destruct (isDigit c) eqn:D; [|discriminate].
    intros H. inversion H as [T]. simpl in T. rewrite D in T.
    destruct (take_digits s) as [ds' r'] eqn:T'. inversion T; subst.
    apply take_digits_length in T'. simpl. lia.
Qed.

Lemma take_frac_length (s : jsstring) (ds : list N) (r : jsstring) :
  take_frac s = Some (ds, r) -> List.length r <= List.length s.
Proof.
  unfold take_frac. destruct s as [|c s]; [intros H; inversion H; simpl; lia|].
  destruct (c =? 46)%N; [|intros H; inversion H; simpl; lia].
  destruct (take_digits s) as [ds' r'] eqn:T.
  apply take_digits_length in T.
  destruct ds'; [discriminate|]. intros H. inversion H; subst. simpl. lia.
Qed.

Lemma take_exp_length (s : jsstring) (e : Z) (r : jsstring) :
  take_exp s = Some (e, r) -> List.length r <= List.length s.
Proof.
  unfold take_exp. destruct s as [|c s]; [intros H; inversion H; simpl; lia|].
  destruct ((c =? 101)%N || (c =? 69)%N); [|intros H; inversion H; simpl; lia].
  destruct (match s with [] => (false, s) | sg :: r' => _ end)
    as [neg r1] eqn:S1.
  assert (L : List.length r1 <= List.length s).
  { destruct s as [|sg r']; [inversion S1; simpl; lia|].
    destruct (sg =? 45)%N; [inversion S1; simpl; lia|].
    destruct (sg =? 43)%N; inversion S1; simpl; lia. }
  destruct (take_digits r1) as [ds r2] eqn:T. apply take_digits_length in T.
  destruct ds; [discriminate|]. intros H. inversion H; subst. simpl. lia.
Qed.

Lemma parse_number_length (s : jsstring) (v : jsval) (r : jsstring) :
  parse_number s = Parsed v r -> List.length r < List.length s.
Proof.
  unfold parse_number.
  destruct (match s with [] => (false, s) | c :: r0 => _ end)
    as [neg s1] eqn:S1.
  assert (L1 : List.length s1 <= List.length s).
  { destruct s as [|c r0]; [inversion S1; simpl; lia|].
    destruct (c =? 45)%N; inversion S1; simpl; lia. }
  destruct (take_int s1) as [[ip s2]|] eqn:I; [|discriminate].
  apply take_int_length in I.
  destruct (take_frac s2) as [[fp s3]|] eqn:F; [|discriminate].
  apply take_frac_length in F.
  destruct (take_exp s3) as [[ex s4]|] eqn:E; [|discriminate].
  apply take_exp_length in E.
  intros H. inversion H; subst. lia.
Qed.

Lemma parse_number_fuel (s : jsstring) : parse_number s <> OutOfFuel.
Proof.
  unfold parse_number.
  destruct (match s with [] => (false, s) | c :: r0 => _ end) as [neg s1].
  destruct (take_int s1) as [[ip s2]|]; [|discriminate].
  destruct (take_frac s2) as [[fp s3]|]; [|discriminate].
  destruct (take_exp s3) as [[ex s4]|]; discriminate.
Qed.

Lemma parse_chars_props (n : nat) :
  forall s acc,
    List.length s <= n ->
    parse_chars s acc <> OutOfFuel /\
    forall str r, parse_chars s acc = Parsed str r ->
                  List.length r < List.length s.
Proof.
  induction n as [|n IH]; intros s acc L.
  - destruct s; [|simpl in L; lia]. split; [discriminate|]. discriminate.
  - destruct s as [|c s]; [split; discriminate|].
    simpl in L. cbn [parse_chars].
    destruct (c =? 34)%N.
    { split; [discriminate|]. intros str r H. inversion H; subst. simpl. lia. }
    destruct (c =? 92)%N.
    + destruct s as [|e s1]; [split; discriminate|].
      simpl in L.
      destruct (e =? 117)%N.
      * destruct s1 as [|h1 [|h2 [|h3 [|h4 r2]]]]; try (split; discriminate).
        simpl in L.
        destruct (hex4 h1 h2 h3 h4); [|split; discriminate].
        destruct (IH r2 (n0 :: acc)) as [A B]; [lia|].
        split; [exact A|]. intros str r H. apply B in H. simpl. lia.
      * destruct (unescape e); [|split; discriminate].
        destruct (IH s1 (n0 :: acc)) as [A B]; [lia|].
        split; [exact A|]. intros str r H. apply B in H. simpl. lia.
    + destruct (c <? 32)%N; [split; discriminate|].
      destruct (IH s (c :: acc)) as [A B]; [lia|].
      split; [exact A|]. intros str r H. apply B in H. simpl. lia.
Qed.

Lemma parse_chars_fuel (s acc : jsstring) : parse_chars s acc <> OutOfFuel.
Proof. apply (parse_chars_props (List.length s)). lia. Qed.

Lemma parse_chars_length (s acc str r : jsstring) :
  parse_chars s acc = Parsed str r -> List.length r < List.length s.
Proof. apply (parse_chars_props (List.length s)). lia. Qed.

Lemma strip_prefix_length (p s r : jsstring) :
  strip_prefix p s = Some r -> List.length r + List.length p = List.length s.
Proof.
  revert s. induction p as [|a p IH]; intros s; simpl.
  - intros H. inversion H. lia.
  - destruct s as [|b s]; [discriminate|].
    destruct (a =? b)%N; [|discriminate].
    intros H. apply IH in H. simpl. lia.
Qed.

(** What a parser leaves is shorter than what it was given. *)
Lemma parse_length (f : nat) :
  (forall s v r, parse_value f s = Parsed v r ->
                 List.length r < List.length s) /\
  (forall s acc vs r, parse_elements f s acc = Parsed vs r ->
                      List.length r < List.length s) /\
  (forall s acc ps r, parse_members f s acc = Parsed ps r ->
                      List.length r < List.length s).
Proof.
  induction f as [|f (IHv & IHe & IHm)];
    [repeat split; intros; discriminate|].
  split; [|split].
  - intros s v r. cbn [parse_value parse_elements parse_members].
    destruct (skip_ws s) as [|c r0] eqn:S0; [discriminate|].
    apply skip_ws_cons in S0.
    destruct (c =? 123)%N.
    { destruct (skip_ws r0) as [|c1 r1] eqn:S1; [discriminate|].
      apply skip_ws_cons in S1.
      destruct (c1 =? 125)%N; [intros H; inversion H; subst; lia|].
      destruct (parse_members f (c1 :: r1) []) eqn:P; try discriminate.
      apply IHm in P. simpl in P. intros H. inversion H; subst. lia. }
    destruct (c =? 91)%N.
    { destruct (skip_ws r0) as [|c1 r1] eqn:S1; [discriminate|].
      apply skip_ws_cons in S1.
      destruct (c1 =? 93)%N; [intros H; inversion H; subst; lia|].
      destruct (parse_elements f (c1 :: r1) []) eqn:P; try discriminate.
      apply IHe in P. simpl in P. intros H. inversion H; subst. lia. }
    destruct (c =? 34)%N.
    { destruct (parse_chars r0 []) eqn:P; try discriminate.
      apply parse_chars_length in P. intros H. inversion H; subst. lia. }
    destruct (c =? 116)%N.
    { destruct (strip_prefix (lit "true") (c :: r0)) eqn:P; [|discriminate].
      apply strip_prefix_length in P. simpl in P.
      intros H. inversion H; subst. lia. }
    destruct (c =? 102)%N.
    { destruct (strip_prefix (lit "false") (c :: r0)) eqn:P; [|discriminate].
      apply strip_prefix_length in P. simpl in P.
      intros H. inversion H; subst. lia. }
    destruct (c =? 110)%N.
    { destruct (strip_prefix (lit "null") (c :: r0)) eqn:P; [|discriminate].
      apply strip_prefix_length in P. simpl in P.
      intros H. inversion H; subst. lia. }
    intros H. apply parse_number_length in H. simpl in H. lia.
  - intros s acc vs r. cbn [parse_value parse_elements parse_members].
    destruct (parse_value f s) as [v r0| |] eqn:P; try discriminate.
    apply IHv in P.
    destruct (skip_ws r0) as [|c r1] eqn:S1; [discriminate|].
    apply skip_ws_cons in S1.
    destruct (c =? 44)%N; [intros H; apply IHe in H; lia|].
    destruct (c =? 93)%N; [|discriminate].
    intros H. inversion H; subst. lia.
  - intros s acc ps r. cbn [parse_value parse_elements parse_members].
    destruct (skip_ws s) as [|q r0] eqn:S0; [discriminate|].
    apply skip_ws_cons in S0.
    destruct (q =? 34)%N; [|discriminate].
    destruct (parse_chars r0 []) as [key r1| |] eqn:K; try discriminate.
    apply parse_chars_length in K.
    destruct (skip_ws r1) as [|c r2] eqn:S1; [discriminate|].
    apply skip_ws_cons in S1.
    destruct (c =? 58)%N; [|discriminate].
    destruct (parse_value f r2) as [v r3| |] eqn:P; try discriminate.
    apply IHv in P.
    destruct (skip_ws r3) as [|d r4] eqn:S3; [discriminate|].
    apply skip_ws_cons in S3.
    destruct (d =? 44)%N; [intros H; apply IHm in H; lia|].
    destruct (d =? 125)%N; [|discriminate].
    intros H. inversion H; subst. lia.
Qed.

(** Twice the length of the input, and one or two more, is fuel enough. *)
Lemma parse_fuel_enough (f : nat) :
  (forall s, 2 * List.length s + 1 <= f -> parse_value f s <> OutOfFuel) /\
  (forall s acc, 2 * List.length s + 2 <= f ->
                 parse_elements f s acc <> OutOfFuel) /\
  (forall s acc, 2 * List.length s + 2 <= f ->
                 parse_members f s acc <> OutOfFuel).
Proof.
  induction f as [|f (IHv & IHe & IHm)];
    [repeat split; intros; lia|].
  split; [|split].
  - intros s L. cbn [parse_value parse_elements parse_members].
    destruct (skip_ws s) as [|c r0] eqn:S0; [discriminate|].
    apply skip_ws_cons in S0.
    destruct (c =? 123)%N.
    { destruct (skip_ws r0) as [|c1 r1] eqn:S1; [discriminate|].
      apply skip_ws_cons in S1.
      destruct (c1 =? 125)%N; [discriminate|].
      destruct (parse_members f (c1 :: r1) []) eqn:P; try discriminate.
      exfalso. revert P. apply IHm. simpl. lia. }
    destruct (c =? 91)%N.
    { destruct (skip_ws r0) as [|c1 r1] eqn:S1; [discriminate|].
      apply skip_ws_cons in S1.
      destruct (c1 =? 93)%N; [discriminate|].
      destruct (parse_elements f (c1 :: r1) []) eqn:P; try discriminate.
      exfalso. revert P. apply IHe. simpl. lia. }
    destruct (c =? 34)%N.
    { destruct (parse_chars r0 []) eqn:P; try discriminate.
      exfalso. revert P. apply parse_chars_fuel. }
    destruct (c =? 116)%N; [destruct (strip_prefix _ _); discriminate|].
    destruct (c =? 102)%N; [destruct (strip_prefix _ _); discriminate|].
    destruct (c =? 110)%N; [destruct (strip_prefix _ _); discriminate|].
    apply parse_number_fuel.
  - intros s acc L. cbn [parse_value parse_elements parse_members].
    destruct (parse_value f s) as [v r0| |] eqn:P; try discriminate.
    + apply (proj1 (parse_length f)) in P.
      destruct (skip_ws r0) as [|c r1] eqn:S1; [discriminate|].
      apply skip_ws_cons in S1.
      destruct (c =? 44)%N; [apply IHe; lia|].
      destruct (c =? 93)%N; discriminate.
    + exfalso. revert P. apply IHv. lia.
  - intros s acc L. cbn [parse_value parse_elements parse_members].
    destruct (skip_ws s) as [|q r0] eqn:S0; [discriminate|].
    apply skip_ws_cons in S0.
    destruct (q =? 34)%N; [|discriminate].
    destruct (parse_chars r0 []) as [key r1| |] eqn:K; try discriminate.
    + apply parse_chars_length in K.
      destruct (skip_ws r1) as [|c r2] eqn:S1; [discriminate|].
      apply skip_ws_cons in S1.
      destruct (c =? 58)%N; [|discriminate].
      destruct (parse_value f r2) as [v r3| |] eqn:P; try discriminate.
      * apply (proj1 (parse_length f)) in P.
        destruct (skip_ws r3) as [|d r4] eqn:S3; [discriminate|].
        apply skip_ws_cons in S3.
        destruct (d =? 44)%N; [apply IHm; lia|].
        destruct (d =? 125)%N; discriminate.
      * exfalso. revert P. apply IHv. lia.
    + exfalso. revert K. apply parse_chars_fuel.
Qed.

(** [JSON_parse] never answers for lack of fuel. *)
Lemma parse_value_fuel (s : jsstring) :
  parse_value (parse_fuel s) s <> OutOfFuel.
Proof. apply parse_fuel_enough. unfold parse_fuel. lia. Qed.

End ParserFuel.

Lemma handle_line_run lvl input cb s :
  handle lvl (Line input cb) s =
  if replClosed s then (Ret tt, s, []) else repl_eval input cb s.
Proof.
  unfold handle, bind, get_replClosed.
  destruct (replClosed s); [reflexivity|].
  destruct (repl_eval input cb s) as [[o s'] t]. reflexivity.
Qed.

(** ** White space *)

Lemma trimStart_empty (s : jsstring) :
  trimStart s = [] <-> whitespace_only s = true.
Proof.
  induction s as [|c r IH]; simpl.
  - split; reflexivity.
  - destruct (isWhiteSpace c); simpl.
    + exact IH.
    + split; discriminate.
Qed.

Lemma trimStart_head (s : jsstring) (c : N) (r : jsstring) :
  trimStart s = c :: r -> isWhiteSpace c = false.
Proof.
  induction s as [|d s IH]; simpl; [discriminate|].
  destruct (isWhiteSpace d) eqn:W; [exact IH|].
  intros H. inversion H; subst. exact W.
Qed.

(** [trim] leaves nothing exactly of the lines made of white space. *)
Lemma trim_empty (s : jsstring) :
  trim s = [] <-> whitespace_only s = true.
Proof.
  unfold trim, trimEnd. split.
  - intros H. apply trimStart_empty.
    destruct (trimStart s) as [|c r] eqn:T; [reflexivity|].
    assert (W : whitespace_only (rev (c :: r)) = true).
    { apply trimStart_empty.
      destruct (trimStart (rev (c :: r))) as [|x l]; [reflexivity|].
      apply (f_equal (@List.length N)) in H. rewrite length_rev in H.
      discriminate. }
    unfold whitespace_only in W. rewrite forallb_forall in W.
    assert (isWhiteSpace c = true) by (apply W, in_rev; rewrite rev_involutive; left; reflexivity).
    rewrite (trimStart_head s c r T) in H0. discriminate.
  - intros H. apply trimStart_empty in H. rewrite H. reflexivity.
Qed.

(** ** The states of a session *)

(** While no command is pending the prompt is shown. *)
Lemma idle_is_prompting lvl code s :
  reachable lvl code s -> finishCallback s = None -> isPrompting s = true.
Proof.
  induction 1 as [s0|s ev R IH NE].
  - rewrite on_connection_run. reflexivity.
  - destruct ev as [input cb|data| |]; [| | |congruence].
    + rewrite handle_line_run.
      destruct (replClosed s); [exact IH|].
      destruct (trim input) as [|c r] eqn:T.
      * rewrite (repl_eval_blank _ _ _ T). exact IH.
      * rewrite repl_eval_command by congruence. discriminate.
    + intros _. apply on_message_returns.
    + simpl. rewrite rl_close_run. exact IH.
Qed.

Lemma sends_app (a b : list Event) : sends (a ++ b) = sends a ++ sends b.
Proof.
  induction a as [|e a IH]; [reflexivity|].
  destruct e; simpl; rewrite IH; reflexivity.
Qed.

Lemma invocations_app (a b : list Event) :
  invocations (a ++ b) = invocations a ++ invocations b.
Proof.
  induction a as [|e a IH]; [reflexivity|].
  destruct e; simpl; rewrite IH; reflexivity.
Qed.

Lemma sends_notice lvl s m : sends (notice lvl s m) = [].
Proof. unfold notice. destruct (num_lt lvl (num_of_Z 2)); reflexivity. Qed.

Lemma invocations_notice lvl s m : invocations (notice lvl s m) = [].
Proof. unfold notice. destruct (num_lt lvl (num_of_Z 2)); reflexivity. Qed.

Lemma bind_run {A B} (m : M A) (k : A -> M B) (s s1 : State) (a : A)
    (t1 : list Event) :
  m s = (Ret a, s1, t1) ->
  bind m k s =
  (outcome_of (k a s1), state_of (k a s1), t1 ++ trace_of (k a s1)).
Proof.
  intros H. unfold bind. rewrite H.
  destruct (k a s1) as [[o s2] t2]. reflexivity.
Qed.

(** No listener lets an error escape, and a listener sends at most the
    request of the line it was given. *)
Lemma handle_returns lvl ev s :
  outcome_of (handle lvl ev s) = Ret tt /\
  (sends (trace_of (handle lvl ev s)) = [] \/
   exists input cb, ev = Line input cb /\
     sends (trace_of (handle lvl ev s)) = [wire input]).
Proof.
  destruct ev as [input cb|data| |].
  - rewrite handle_line_run. destruct (replClosed s); [split; auto|].
    destruct (trim input) as [|c r] eqn:T.
    + rewrite (repl_eval_blank _ _ _ T). split; auto.
    + rewrite repl_eval_command by congruence. split; [reflexivity|].
      right. exists input, cb. split; reflexivity.
  - simpl. split; [apply on_message_returns|]. left.
    destruct (finishCallback s) as [cb|] eqn:F.
    + rewrite (on_message_awaiting lvl data s cb F).
      destruct (discordColorise data); reflexivity.
    + rewrite (on_message_idle lvl data s F).
      destruct (num_seq lvl (num_of_Z 2)); [reflexivity|].
      destruct (discordColorise data); reflexivity.
  - simpl. rewrite rl_close_run. split; [reflexivity|]. left.
    destruct (replClosed s); [reflexivity|].
    simpl. apply sends_notice.
  - simpl. rewrite on_ws_close_run. split; [reflexivity|]. left.
    unfold trace_of, snd. rewrite sends_app, sends_notice.
    destruct (replClosed s); [reflexivity|].
    simpl. apply sends_notice.
Qed.

Lemma run_cons lvl ev rest s :
  run lvl (ev :: rest) s =
  let s1 := state_of (handle lvl ev s) in
  let k := match ev with SocketClosed => ret tt | _ => run lvl rest end in
  (outcome_of (k s1), state_of (k s1),
   trace_of (handle lvl ev s) ++ trace_of (k s1)).
Proof.
  destruct (handle_returns lvl ev s) as [O _].
  destruct (handle lvl ev s) as [[o s1] t1] eqn:H.
  unfold outcome_of in O. simpl in O. subst o.
  change (run lvl (ev :: rest)) with
    (bind (handle lvl ev)
       (fun _ => match ev with SocketClosed => ret tt | _ => run lvl rest end)).
  rewrite (bind_run _ _ _ _ _ _ H). reflexivity.
Qed.

(** A run of listeners returns, and sends only requests of operator
    lines. *)
Lemma run_returns lvl evs :
  forall s,
    outcome_of (run lvl evs s) = Ret tt /\
    Forall (fun p => exists input, In input (lines evs) /\ p = wire input)
      (sends (trace_of (run lvl evs s))).
Proof.
  induction evs as [|ev rest IH]; intros s.
  - split; [reflexivity|constructor].
  - rewrite run_cons. cbv zeta.
    set (s1 := state_of (handle lvl ev s)).
    assert (K : outcome_of
                  (match ev with SocketClosed => ret tt | _ => run lvl rest end s1)
                = Ret tt /\
                Forall (fun p => exists input, In input (lines rest) /\ p = wire input)
                  (sends (trace_of
                     (match ev with SocketClosed => ret tt | _ => run lvl rest end s1)))).
    { destruct ev; try apply IH. split; [reflexivity|constructor]. }
    destruct K as [KO KS]. split; [exact KO|].
    unfold trace_of at 1. unfold snd. rewrite sends_app.
    apply Forall_app. split.
    + destruct (handle_returns lvl ev s) as [_ [E|(input & cb & -> & E)]];
        rewrite E; [constructor|].
      constructor; [|constructor]. exists input. split; [left|]; reflexivity.
    + eapply Forall_impl; [|exact KS].
      intros p (input & I & ->). exists input. split; [|reflexivity].
      destruct ev; simpl; auto.
Qed.

(** ** Replies to commands *)

(** The callback of a reply throws exactly when the formatter does. *)
Lemma invoke_result_throws cb data s e :
  outcome_of (invoke cb (Result data) s) = Throw e <->
  discordColorise data = Throw e.
Proof.
  unfold invoke, repl_finish, writer, bind, lift, emit, displayPrompt, ret,
    outcome_of.
  simpl. destruct (discordColorise data); simpl; split; congruence.
Qed.

Lemma invoke_result_returns cb data s :
  outcome_of (invoke cb (Result data) s) = Ret tt <->
  exists t, discordColorise data = Ret t.
Proof.
  unfold invoke, repl_finish, writer, bind, lift, emit, displayPrompt, ret,
    outcome_of.
  simpl. destruct (discordColorise data); simpl; split;
    try congruence; eauto.
  intros [t' H]; congruence.
Qed.

(** A message that arrives while a command is pending is passed to the
    pending callback once; the slot is cleared when that call returns. *)
Lemma reply_delivered_once lvl data s cb :
  finishCallback s = Some cb ->
  invocations (trace_of (on_message lvl data s)) = [(cb, Result data)] /\
  (outcome_of (invoke cb (Result data) s) = Ret tt ->
   finishCallback (state_of (on_message lvl data s)) = None).
Proof.
  intros F. rewrite (on_message_awaiting lvl data s cb F). split.
  - destruct (discordColorise data); reflexivity.
  - intros H. apply invoke_result_returns in H. destruct H as [t H].
    rewrite H. reflexivity.
Qed.

(** C1, as the code behaves: when the call of the pending callback throws
    while a message is handled, the error is caught and logged as an error
    of the debugger, the listener returns and the prompt flag is set again,
    but the callback slot still holds the callback, so the session has not
    returned to Idle. *)
Theorem throwing_callback_keeps_command_pending lvl data s cb e :
  finishCallback s = Some cb ->
  outcome_of (invoke cb (Result data) s) = Throw e ->
  on_message lvl data s =
  (Ret tt, with_reply s (Some cb),
   [Invoke cb (Result data); ConsoleLog (prefix s ++ error_line);
    ConsoleError e; DisplayPrompt]).
Proof.
  intros F T. apply invoke_result_throws in T.
  rewrite (on_message_awaiting lvl data s cb F), T. reflexivity.
Qed.

Lemma throwing_callback_keeps_command_pending_witness :
  on_message (num_of_Z 0) (lit "hello")
    {| isPrompting := false; finishCallback := Some 1%nat;
       replClosed := false |} =
  (Ret tt,
   {| isPrompting := true; finishCallback := Some 1%nat;
      replClosed := false |},
   [Invoke 1%nat (Result (lit "hello")); ConsoleLog error_line;
    ConsoleError SyntaxError; DisplayPrompt]).
Proof.
  apply (throwing_callback_keeps_command_pending (num_of_Z 0) (lit "hello")
           {| isPrompting := false; finishCallback := Some 1%nat;
              replClosed := false |} 1%nat SyntaxError);
    reflexivity.
Defined.

(** C2, as the code behaves: after the reply [hello], which is not JSON,
    to the command [1+1], the callback of that command is still pending,
    and the next message, an unsolicited log, is passed to it as well. *)
Theorem stale_callback_receives_next_message :
  finishCallback
    (state_of
       (session (num_of_Z 0) None
          [Line (lit "1+1") 1%nat; Message (lit "hello")] initial))
  = Some 1%nat /\
  invocations
    (trace_of
       (session (num_of_Z 0) None
          [Line (lit "1+1") 1%nat; Message (lit "hello");
           Message envelope_x_3] initial))
  = [(1%nat, Result (lit "hello")); (1%nat, Result envelope_x_3)].
Proof. split; vm_compute; reflexivity. Qed.

(** ** The formatter of the REPL *)

(** C3, counterexample: the reply [{"message":"x","level":3}] is not shown
    as it is: the formatter parses it and returns the tagged, coloured
    message. *)
Lemma writer_parses_reply_envelope :
  writer (RData envelope_x_3) connected =
  (Ret (WText [Styled cyan (Lit (lit "[Vendetta] "));
               Styled red (Lit (lit "x"))]), connected, []) /\
  writer (RData envelope_x_3) connected <>
  (Ret (WText [Plain (Lit envelope_x_3)]), connected, []).
Proof. split; [reflexivity|discriminate]. Qed.

Lemma paint_shown (st : Style) (m : jsval) :
  convertible m = true ->
  m <> JUndefined -> m <> JNull -> m <> JStr [] ->
  paint st m = Ret [Styled st (str m)].
Proof.
  intros C U N E. unfold paint.
  destruct m as [| | | |x| |]; try congruence; try reflexivity;
    try (rewrite C; reflexivity).
  destruct x; [congruence|reflexivity].
Qed.

Lemma paint_blank (st : Style) (m : jsval) :
  m = JUndefined \/ m = JNull \/ m = JStr [] -> paint st m = Ret [].
Proof. intros [->|[->| ->]]; reflexivity. Qed.

Lemma writer_data_run (data : jsstring) (s : State) :
  writer (RData data) s =
  (match discordColorise data with
   | Ret t => Ret (WText t)
   | Throw e => Throw e
   end, s, []).
Proof.
  unfold writer, bind, lift, ret.
  destruct (discordColorise data); reflexivity.
Qed.

(** C3, amended: an Error is routed to the error line tagged Debugger in
    the error colour and handed back; any other payload goes through the
    formatter of the unsolicited messages below level 2: a payload that
    is JSON and not [null] is shown as the tag Vendetta followed by its
    message, coloured when its level is the number 0 (cyan), 2 (yellow)
    or 3 (red) and as it is otherwise (a coloured message that is absent,
    [null] or empty leaves the tag alone); a payload that is not JSON or
    is [null], or whose message does not convert to a string, makes the
    formatter throw. *)
Theorem writer_formats_errors_and_envelopes s :
  (forall e,
     writer (RError e) s =
     (Ret (WError e), s, [ConsoleLog (prefix s ++ error_line)])) /\
  (forall data v m,
     JSON_parse data = Ret v ->
     get_prop (lit "message") v = JStr m -> m <> [] ->
     writer (RData data) s =
     (Ret (WText
             [Styled cyan (Lit (lit "[Vendetta] "));
              let level := get_prop (lit "level") v in
              if level_is level 0 then Styled cyan (Lit m)
              else if level_is level 2 then Styled yellow (Lit m)
              else if level_is level 3 then Styled red (Lit m)
              else Plain (Lit m)]), s, [])) /\
  (forall data e,
     JSON_parse data = Throw e -> writer (RData data) s = (Throw e, s, [])) /\
  (forall data,
     JSON_parse data = Ret JNull ->
     writer (RData data) s = (Throw TypeError, s, [])) /\
  (forall data v,
     JSON_parse data = Ret v -> v <> JNull ->
     writer (RData data) s =
     (match
        (let message := get_prop (lit "message") v in
         let level := get_prop (lit "level") v in
         if level_is level 0 then paint cyan message
         else if level_is level 2 then paint yellow message
         else if level_is level 3 then paint red message
         else show message)
      with
      | Ret body => Ret (WText (vendetta_tag :: body))
      | Throw e => Throw e
      end, s, [])) /\
  (forall data v,
     JSON_parse data = Ret v -> v <> JNull ->
     convertible (get_prop (lit "message") v) = false ->
     writer (RData data) s = (Throw TypeError, s, [])) /\
  (forall data lvl,
     num_seq lvl (num_of_Z 2) = false ->
     writer (RData data) s =
     (match discordColorise data with
      | Ret t => Ret (WText t)
      | Throw e => Throw e
      end, s, []) /\
     discordLog lvl data s =
     match discordColorise data with
     | Ret t => (Ret tt, s, [ConsoleLog (prefix s ++ t)])
     | Throw e => (Throw e, s, [])
     end) /\
  (forall data v k,
     JSON_parse data = Ret v ->
     get_prop (lit "message") v = JUndefined \/
     get_prop (lit "message") v = JNull \/
     get_prop (lit "message") v = JStr [] ->
     k = 0%Z \/ k = 2%Z \/ k = 3%Z ->
     level_is (get_prop (lit "level") v) k = true ->
     writer (RData data) s = (Ret (WText [vendetta_tag]), s, [])) /\
  (forall data v,
     JSON_parse data = Ret v -> v <> JNull ->
     convertible (get_prop (lit "message") v) = true ->
     get_prop (lit "message") v <> JUndefined ->
     get_prop (lit "message") v <> JNull ->
     get_prop (lit "message") v <> JStr [] ->
     writer (RData data) s =
     (Ret (WText
             [vendetta_tag;
              let message := get_prop (lit "message") v in
              let level := get_prop (lit "level") v in
              if level_is level 0 then Styled cyan (str message)
              else if level_is level 2 then Styled yellow (str message)
              else if level_is level 3 then Styled red (str message)
              else Plain (str message)]), s, [])) /\
  (forall data v,
     JSON_parse data = Ret v -> v <> JNull ->
     convertible (get_prop (lit "message") v) = true ->
     level_is (get_prop (lit "level") v) 0 = false ->
     level_is (get_prop (lit "level") v) 2 = false ->
     level_is (get_prop (lit "level") v) 3 = false ->
     writer (RData data) s =
     (Ret (WText [vendetta_tag; Plain (str (get_prop (lit "message") v))]),
      s, [])).
Proof.
  split; [|split; [|split; [|split; [|split; [|split;
    [|split; [|split; [|split]]]]]]]].
  - intros e. reflexivity.
  - intros data v m P G NE.
    assert (V : v <> JNull) by (intros ->; discriminate).
    rewrite writer_data_run, (discordColorise_parsed data v P V), G.
    destruct m as [|c r]; [congruence|]. cbv zeta.
    destruct (level_is _ 0); [reflexivity|].
    destruct (level_is _ 2); [reflexivity|].
    destruct (level_is _ 3); reflexivity.
  - intros data e P.
    rewrite writer_data_run. unfold discordColorise. rewrite P. reflexivity.
  - intros data P.
    rewrite writer_data_run. unfold discordColorise. rewrite P. reflexivity.
  - intros data v P V.
    rewrite writer_data_run, (discordColorise_parsed data v P V). cbv zeta.
    match goal with
    | |- context [match ?c with Ret _ => _ | Throw _ => _ end] =>
        destruct c; reflexivity
    end.
  - intros data v P V C.
    rewrite writer_data_run, (discordColorise_parsed data v P V).
    rewrite (proj2 (message_text_outcome _ _) C). reflexivity.
  - intros data lvl L. split; [apply writer_data_run|].
    unfold discordLog, bind, lift. rewrite L.
    destruct (discordColorise data); reflexivity.
  - intros data v k P M K L.
    assert (V : v <> JNull) by (intros ->; discriminate L).
    rewrite writer_data_run, (discordColorise_parsed data v P V).
    destruct (level_is (get_prop (lit "level") v) 0) eqn:L0;
      [rewrite (paint_blank _ _ M); reflexivity|].
    destruct (level_is (get_prop (lit "level") v) 2) eqn:L2;
      [rewrite (paint_blank _ _ M); reflexivity|].
    destruct (level_is (get_prop (lit "level") v) 3) eqn:L3;
      [rewrite (paint_blank _ _ M); reflexivity|].
    destruct K as [->|[->| ->]]; congruence.
  - intros data v P V C U N E.
    rewrite writer_data_run, (discordColorise_parsed data v P V). cbv zeta.
    destruct (level_is (get_prop (lit "level") v) 0);
      [rewrite (paint_shown _ _ C U N E); reflexivity|].
    destruct (level_is (get_prop (lit "level") v) 2);
      [rewrite (paint_shown _ _ C U N E); reflexivity|].
    destruct (level_is (get_prop (lit "level") v) 3);
      [rewrite (paint_shown _ _ C U N E); reflexivity|].
    unfold show. rewrite C. reflexivity.
  - intros data v P V C L0 L2 L3.
    rewrite writer_data_run, (discordColorise_parsed data v P V).
    rewrite L0, L2, L3. unfold show. rewrite C. reflexivity.
Qed.

Lemma writer_formats_errors_and_envelopes_witness :
  writer (RData envelope_x_3) connected =
  (Ret (WText [Styled cyan (Lit (lit "[Vendetta] "));
               Styled red (Lit (lit "x"))]), connected, []) /\
  writer (RData (lit "hello")) connected = (Throw SyntaxError, connected, []) /\
  writer (RData (lit "null")) connected = (Throw TypeError, connected, []) /\
  writer
    (RData (lit "{" ++ quoted "message" ++ lit ":{" ++ quoted "toString" ++
            lit ":0}}")) connected = (Throw TypeError, connected, []).
Proof.
  split; [|split; [|split]].
  - apply (proj1 (proj2 (writer_formats_errors_and_envelopes connected))
             envelope_x_3
             (JObj [(lit "message", JStr (lit "x"));
                    (lit "level", JNum (num_of_Z 3))])
             (lit "x"));
      [reflexivity | reflexivity | discriminate].
  - apply (proj1 (proj2 (proj2
             (writer_formats_errors_and_envelopes connected)))
             (lit "hello") SyntaxError).
    reflexivity.
  - apply (proj1 (proj2 (proj2 (proj2
             (writer_formats_errors_and_envelopes connected))))
             (lit "null")).
    reflexivity.
  - apply (proj1 (proj2 (proj2 (proj2 (proj2 (proj2
             (writer_formats_errors_and_envelopes connected))))))
             (lit "{" ++ quoted "message" ++ lit ":{" ++ quoted "toString" ++
              lit ":0}}")
             (JObj [(lit "message",
                     JObj [(lit "toString", JNum (num_of_Z 0))])]));
      [reflexivity | discriminate | reflexivity].
Defined.

(** ** Unsolicited messages *)

(** C4: a message that arrives while no command is pending is handed to
    [discordLog] for display (raw at level 2, as a coloured envelope
    otherwise, the error line when the envelope cannot be read), no
    callback is called, the session stays Idle and [isPrompting] keeps
    its value. *)
Theorem idle_message_is_logged lvl code s data :
  reachable lvl code s ->
  finishCallback s = None ->
  isPrompting (state_of (on_message lvl data s)) = isPrompting s /\
  finishCallback (state_of (on_message lvl data s)) = None /\
  invocations (trace_of (on_message lvl data s)) = [] /\
  trace_of (on_message lvl data s) =
  (if num_seq lvl (num_of_Z 2)
   then [ConsoleLog (prefix s ++ [Plain (Lit data)])]
   else match discordColorise data with
        | Ret t => [ConsoleLog (prefix s ++ t)]
        | Throw e => [ConsoleLog (prefix s ++ error_line); ConsoleError e]
        end) ++ [DisplayPrompt].
Proof.
  intros R F. rewrite (idle_is_prompting lvl code s R F).
  rewrite (on_message_idle lvl data s F).
  destruct (num_seq lvl (num_of_Z 2)); [repeat split|].
  destruct (discordColorise data); repeat split.
Qed.

Lemma idle_message_is_logged_witness :
  isPrompting
    (state_of
       (on_message (num_of_Z 0) envelope_x_3
          (state_of (on_connection (num_of_Z 0) None initial)))) = true /\
  trace_of
    (on_message (num_of_Z 0) envelope_x_3
       (state_of (on_connection (num_of_Z 0) None initial))) =
  [ConsoleLog [Plain (Lit newline); Styled cyan (Lit (lit "[Vendetta] "));
               Styled red (Lit (lit "x"))];
   DisplayPrompt].
Proof.
  destruct (idle_message_is_logged (num_of_Z 0) None
              (state_of (on_connection (num_of_Z 0) None initial))
              envelope_x_3
              (reach_connected (num_of_Z 0) None initial) eq_refl)
    as (P & _ & _ & T).
  split; [exact P | exact T].
Defined.

(** What [discordLog] shows of the envelope of an error below level 2. *)
Lemma discordLog_raw lvl data s :
  num_seq lvl (num_of_Z 2) = true ->
  discordLog lvl data s =
  (Ret tt, s, [ConsoleLog (prefix s ++ [Plain (Lit data)])]).
Proof. intros H. unfold discordLog. rewrite H. reflexivity. Qed.

Lemma discordLog_colorised lvl data s t :
  num_seq lvl (num_of_Z 2) = false ->
  discordColorise data = Ret t ->
  discordLog lvl data s = (Ret tt, s, [ConsoleLog (prefix s ++ t)]).
Proof.
  intros H D. unfold discordLog, bind, lift. rewrite H, D. reflexivity.
Qed.

(** C6: at level 2 an unsolicited message is logged as it arrived, without
    parsing or colour; below level 2 the unsolicited message
    [{"message":"x","level":3}] is logged with the Vendetta tag and its
    message in the error colour. *)
Theorem unsolicited_message_display lvl s data :
  finishCallback s = None ->
  (num_seq lvl (num_of_Z 2) = true ->
   discordLog lvl data s =
   (Ret tt, s, [ConsoleLog (prefix s ++ [Plain (Lit data)])]) /\
   trace_of (on_message lvl data s) =
   [ConsoleLog (prefix s ++ [Plain (Lit data)]); DisplayPrompt]) /\
  (num_lt lvl (num_of_Z 2) = true ->
   discordLog lvl envelope_x_3 s =
   (Ret tt, s,
    [ConsoleLog (prefix s ++ [Styled cyan (Lit (lit "[Vendetta] "));
                              Styled red (Lit (lit "x"))])]) /\
   trace_of (on_message lvl envelope_x_3 s) =
   [ConsoleLog (prefix s ++ [Styled cyan (Lit (lit "[Vendetta] "));
                             Styled red (Lit (lit "x"))]);
    DisplayPrompt]).
Proof.
  intros F. split; intros H.
  - split; [apply discordLog_raw, H|].
    rewrite (on_message_idle lvl data s F), H. reflexivity.
  - apply num_lt_not_seq in H. split.
    + apply discordLog_colorised; [exact H|reflexivity].
    + rewrite (on_message_idle lvl envelope_x_3 s F), H. reflexivity.
Qed.

Lemma unsolicited_message_display_witness :
  trace_of (on_message (num_of_Z 2) (lit "hello") connected) =
  [ConsoleLog [Plain (Lit newline); Plain (Lit (lit "hello"))];
   DisplayPrompt] /\
  trace_of (on_message (num_of_Z 1) envelope_x_3 connected) =
  [ConsoleLog [Plain (Lit newline); Styled cyan (Lit (lit "[Vendetta] "));
               Styled red (Lit (lit "x"))];
   DisplayPrompt].
Proof.
  split.
  - exact (proj2 (proj1 (unsolicited_message_display (num_of_Z 2) connected
                           (lit "hello") eq_refl) eq_refl)).
  - exact (proj2 (proj2 (unsolicited_message_display (num_of_Z 1) connected
                           (lit "hello") eq_refl) eq_refl)).
Defined.

(** ** Closing *)

(** C5: when the socket closes while a command is pending, the REPL is
    closed, the pending callback is not called, then or later, and the
    prompt flag is cleared. *)
Theorem close_while_awaiting_closes_repl lvl s cb rest :
  finishCallback s = Some cb ->
  outcome_of (run lvl (SocketClosed :: rest) s) = Ret tt /\
  replClosed (state_of (run lvl (SocketClosed :: rest) s)) = true /\
  isPrompting (state_of (run lvl (SocketClosed :: rest) s)) = false /\
  invocations (trace_of (run lvl (SocketClosed :: rest) s)) = [] /\
  (replClosed s = false ->
   In ReplClose (trace_of (run lvl (SocketClosed :: rest) s))).
Proof.
  intros F. rewrite run_cons. cbv zeta. simpl handle.
  rewrite on_ws_close_run. unfold outcome_of, state_of, trace_of. simpl.
  repeat split.
  - rewrite app_nil_r, invocations_app, invocations_notice.
    destruct (replClosed s); [reflexivity|].
    simpl. apply invocations_notice.
  - intros C. rewrite C, app_nil_r. apply in_or_app. right. left. reflexivity.
Qed.

Lemma close_while_awaiting_closes_repl_witness :
  replClosed
    (state_of
       (run (num_of_Z 0) [SocketClosed; Message (lit "2")]
          {| isPrompting := false; finishCallback := Some 1%nat;
             replClosed := false |})) = true /\
  invocations
    (trace_of
       (run (num_of_Z 0) [SocketClosed; Message (lit "2")]
          {| isPrompting := false; finishCallback := Some 1%nat;
             replClosed := false |})) = [].
Proof.
  destruct (close_while_awaiting_closes_repl (num_of_Z 0)
              {| isPrompting := false; finishCallback := Some 1%nat;
                 replClosed := false |} 1%nat [Message (lit "2")] eq_refl)
    as (_ & C & _ & I & _).
  split; [exact C | exact I].
Defined.

(** ** Blank input *)

(** C7: for an empty or white-space-only line nothing is sent, the callback
    slot and [isPrompting] keep their values, and the REPL only redraws its
    prompt. *)
Theorem blank_line_is_no_operation lvl input cb s :
  whitespace_only input = true ->
  repl_eval input cb s = (Ret tt, s, [Invoke cb NoArgs; DisplayPrompt]) /\
  outcome_of (handle lvl (Line input cb) s) = Ret tt /\
  state_of (handle lvl (Line input cb) s) = s /\
  sends (trace_of (handle lvl (Line input cb) s)) = [].
Proof.
  intros W. apply trim_empty in W.
  split; [apply repl_eval_blank, W|].
  rewrite handle_line_run, (repl_eval_blank _ _ _ W).
  destruct (replClosed s); repeat split.
Qed.

Lemma blank_line_is_no_operation_witness :
  repl_eval [32; 9; 32; 10] 7%nat connected =
  (Ret tt, connected, [Invoke 7%nat NoArgs; DisplayPrompt]).
Proof.
  exact (proj1 (blank_line_is_no_operation (num_of_Z 0) [32; 9; 32; 10] 7%nat
                  connected eq_refl)).
Defined.

(** ** Start-up *)


(** Reading the optional file leaves the variables alone, sends nothing
    and does not log the welcome message; when the read is rejected,
    nothing has been printed. *)
Lemma read_onConnected_run path access readFile s :
  exists t,
    read_onConnected path access readFile s =
    (match path with
     | Some p =>
         if truthy_string p
         then match access p with
              | Some _ => Ret None
              | None =>
                  match readFile p with
                  | Ret contents => Ret (Some (Some contents))
                  | Throw e => Throw e
                  end
              end
         else Ret (Some None)
     | None => Ret (Some None)
     end, s, t) /\
    sends t = [] /\
    ~ In (ConsoleLog [Plain (Lit banner)]) t /\
    (forall e, outcome_of (read_onConnected path access readFile s) = Throw e ->
               t = []).
Proof.
  unfold read_onConnected.
  destruct path as [p|]; [|exists []; repeat split; auto].
  destruct (truthy_string p); [|exists []; repeat split; auto].
  destruct (access p) as [e|].
  - eexists. split; [reflexivity|]. split; [reflexivity|]. split.
    + simpl. intros [H|[H|[]]]; discriminate.
    + intros e' H. discriminate H.
  - destruct (readFile p) as [contents|e].
    + destruct contents as [|c r].
      * eexists. split; [reflexivity|]. split; [reflexivity|]. split.
        -- destruct (isPrompting s); simpl; intros [H|[]]; discriminate.
        -- intros e' H. discriminate H.
      * exists []. repeat split; auto.
    + exists []. repeat split; auto.
Qed.








(** ** The notices of the debugger *)

Lemma not_in_notice lvl s m e : ~ In (ConsoleError e) (notice lvl s m).
Proof.
  unfold notice. destruct (num_lt lvl (num_of_Z 2)); simpl;
    [intros [H|[]]; discriminate | auto].
Qed.

(** The errors a listener reports come from the formatter. *)
Lemma handle_console_errors lvl ev s e :
  In (ConsoleError e) (trace_of (handle lvl ev s)) ->
  e = SyntaxError \/ e = TypeError.
Proof.
  destruct ev as [input cb|data| |].
  - rewrite handle_line_run. destruct (replClosed s); [intros []|].
    destruct (trim input) as [|c r] eqn:T.
    + rewrite (repl_eval_blank _ _ _ T). simpl.
      intros [H|[H|[]]]; discriminate.
    + rewrite repl_eval_command by congruence. simpl.
      intros [H|[]]; discriminate.
  - simpl handle. destruct (finishCallback s) as [cb|] eqn:F.
    + rewrite (on_message_awaiting lvl data s cb F).
      destruct (discordColorise data) as [t|e'] eqn:D; simpl.
      * intros [H|[H|[H|[H|[]]]]]; discriminate.
      * intros [H|[H|[H|[H|[]]]]]; try discriminate.
        inversion H; subst. eapply discordColorise_throws; eauto.
    + rewrite (on_message_idle lvl data s F).
      destruct (num_seq lvl (num_of_Z 2)); simpl;
        [intros [H|[H|[]]]; discriminate|].
      destruct (discordColorise data) as [t|e'] eqn:D; simpl.
      * intros [H|[H|[]]]; discriminate.
      * intros [H|[H|[H|[]]]]; try discriminate.
        inversion H; subst. eapply discordColorise_throws; eauto.
  - simpl handle. rewrite rl_close_run. simpl.
    destruct (replClosed s); [intros []|].
    intros [H|H]; [discriminate|]. exfalso. eapply not_in_notice; eauto.
  - simpl handle. rewrite on_ws_close_run. simpl. intros H.
    apply in_app_or in H. destruct H as [H|H];
      [exfalso; eapply not_in_notice; eauto|].
    destruct (replClosed s); [destruct H|].
    destruct H as [H|H]; [discriminate|].
    exfalso. eapply not_in_notice; eauto.
Qed.

Lemma run_console_errors lvl evs :
  forall s e,
    In (ConsoleError e) (trace_of (run lvl evs s)) ->
    e = SyntaxError \/ e = TypeError.
Proof.
  induction evs as [|ev rest IH]; intros s e.
  - intros [].
  - rewrite run_cons. cbv zeta. unfold trace_of at 1. unfold snd.
    intros H. apply in_app_or in H. destruct H as [H|H].
    + eapply handle_console_errors; eauto.
    + destruct ev; [eapply IH; eauto..|destruct H].
Qed.

(** C10: [debuggerLog] throws at level 2, but each of its calls stands
    under the guard [silentLvl < 2], which excludes level 2: a guarded
    call logs its notice and returns, so the four listeners that call it
    return at every level, no session lets an error escape, and no
    ReferenceError is ever reported. *)
Theorem debuggerLog_calls_are_guarded lvl port code m s evs :
  outcome_of (debuggerLog (num_of_Z 2) m s) =
    Throw (ReferenceError (lit "messag")) /\
  when (num_lt lvl (num_of_Z 2)) (debuggerLog lvl m) s =
    (Ret tt, s, notice lvl s m) /\
  outcome_of (on_listening lvl port s) = Ret tt /\
  outcome_of (on_connection lvl code s) = Ret tt /\
  outcome_of (on_rl_close lvl s) = Ret tt /\
  outcome_of (on_ws_close lvl s) = Ret tt /\
  outcome_of (session lvl code evs s) = Ret tt /\
  (forall name,
     ~ In (ConsoleError (ReferenceError name))
         (trace_of (session lvl code evs s))).
Proof.
  split; [reflexivity|].
  split; [apply guarded_debuggerLog|].
  split; [rewrite on_listening_run; reflexivity|].
  split; [rewrite on_connection_run; reflexivity|].
  split; [unfold on_rl_close; rewrite guarded_debuggerLog; reflexivity|].
  split; [rewrite on_ws_close_run; reflexivity|].
  unfold session. rewrite (bind_run _ _ _ _ _ _ (on_connection_run _ _ _)).
  split; [apply run_returns|].
  intros name H. unfold trace_of at 1 in H. simpl snd in H.
  apply in_app_or in H. destruct H as [H|H].
  - apply in_app_or in H. destruct H as [H|H];
      [eapply not_in_notice; eauto|].
    destruct H as [H|H]; [discriminate|].
    destruct code as [c|]; [destruct (truthy_string c)|];
      simpl in H; intuition discriminate.
  - apply run_console_errors in H. destruct H; discriminate.
Qed.

(* ================================================================== *)
(** * Further properties of the code *)

(** ** The message listener on any payload *)

Lemma on_message_state lvl data s :
  replClosed (state_of (on_message lvl data s)) = replClosed s /\
  sends (trace_of (on_message lvl data s)) = [] /\
  closes (trace_of (on_message lvl data s)) = O.
Proof.
  destruct (finishCallback s) as [cb|] eqn:F.
  - rewrite (on_message_awaiting lvl data s cb F).
    destruct (discordColorise data); repeat split.
  - rewrite (on_message_idle lvl data s F).
    destruct (num_seq lvl (num_of_Z 2)); [repeat split|].
    destruct (discordColorise data); repeat split.
Qed.

(** X1: whatever the payload, the level and the state, the message
    listener returns without an error, leaves [isPrompting] set, does not
    touch the REPL's open/closed state, sends nothing, and its last act is
    to redraw the prompt. *)
Theorem message_listener_always_recovers lvl data s :
  outcome_of (on_message lvl data s) = Ret tt /\
  isPrompting (state_of (on_message lvl data s)) = true /\
  replClosed (state_of (on_message lvl data s)) = replClosed s /\
  sends (trace_of (on_message lvl data s)) = [] /\
  exists t, trace_of (on_message lvl data s) = t ++ [DisplayPrompt].
Proof.
  destruct (on_message_returns lvl data s) as [O P].
  destruct (on_message_state lvl data s) as (C & S & _).
  repeat split; try assumption.
  destruct (finishCallback s) as [cb|] eqn:F.
  - rewrite (on_message_awaiting lvl data s cb F).
    destruct (discordColorise data).
    + eexists [_; _; _]. reflexivity.
    + eexists [_; _; _]. reflexivity.
  - rewrite (on_message_idle lvl data s F).
    destruct (num_seq lvl (num_of_Z 2)); [eexists [_]; reflexivity|].
    destruct (discordColorise data).
    + eexists [_]. reflexivity.
    + eexists [_; _]. reflexivity.
Qed.

(** X2: a message that arrives while a command is pending is handled the
    same way at every silent level: the raw mode of level 2 does not apply
    to replies. *)
Theorem reply_handling_ignores_silent_level lvl1 lvl2 data s cb :
  finishCallback s = Some cb ->
  on_message lvl1 data s = on_message lvl2 data s.
Proof.
  intros F.
  rewrite (on_message_awaiting lvl1 data s cb F),
          (on_message_awaiting lvl2 data s cb F).
  reflexivity.
Qed.

Lemma reply_handling_ignores_silent_level_witness :
  on_message (num_of_Z 2) envelope_x_3
    {| isPrompting := false; finishCallback := Some 1%nat;
       replClosed := false |} =
  on_message (num_of_Z 0) envelope_x_3
    {| isPrompting := false; finishCallback := Some 1%nat;
       replClosed := false |}.
Proof.
  exact (reply_handling_ignores_silent_level (num_of_Z 2) (num_of_Z 0)
           envelope_x_3
           {| isPrompting := false; finishCallback := Some 1%nat;
              replClosed := false |} 1%nat eq_refl).
Defined.

(** ** What a run sends *)

Lemma handle_line_state lvl input cb s :
  replClosed (state_of (handle lvl (Line input cb) s)) = replClosed s /\
  sends (trace_of (handle lvl (Line input cb) s)) =
  (if replClosed s || negb (truthy_string (trim input))
   then [] else [wire input]) /\
  closes (trace_of (handle lvl (Line input cb) s)) = O.
Proof.
  rewrite handle_line_run. destruct (replClosed s) eqn:C; [repeat split; auto|].
  destruct (trim input) as [|c r] eqn:T.
  - rewrite (repl_eval_blank _ _ _ T). repeat split; auto.
  - rewrite repl_eval_command by congruence. repeat split; auto.
Qed.

Lemma closes_notice lvl s m : closes (notice lvl s m) = O.
Proof. unfold notice. destruct (num_lt lvl (num_of_Z 2)); reflexivity. Qed.

Lemma closes_app (a b : list Event) :
  closes (a ++ b) = (closes a + closes b)%nat.
Proof.
  induction a as [|e a IH]; [reflexivity|].
  destruct e; simpl; rewrite IH; reflexivity.
Qed.

Lemma rl_close_state lvl s :
  replClosed (state_of (rl_close lvl s)) = true /\
  sends (trace_of (rl_close lvl s)) = [] /\
  closes (trace_of (rl_close lvl s)) = (if replClosed s then 0 else 1)%nat.
Proof.
  rewrite rl_close_run. unfold state_of, trace_of. simpl.
  destruct (replClosed s); [repeat split|].
  simpl. rewrite sends_notice, closes_notice. repeat split.
Qed.

Lemma on_ws_close_state lvl s :
  sends (trace_of (on_ws_close lvl s)) = [] /\
  closes (trace_of (on_ws_close lvl s)) = (if replClosed s then 0 else 1)%nat.
Proof.
  rewrite on_ws_close_run. unfold trace_of. simpl.
  rewrite sends_app, closes_app, sends_notice, closes_notice.
  destruct (replClosed s); [repeat split|].
  simpl. rewrite sends_notice, closes_notice. repeat split.
Qed.

(** X3: a run sends exactly one request for each line that is not blank
    and is read while the REPL is open, in the order of the lines, and
    nothing for blank lines, for messages or after the socket has
    closed. *)
Theorem run_sends_one_request_per_command lvl evs :
  forall s, sends (trace_of (run lvl evs s)) = requests (replClosed s) evs.
Proof.
  induction evs as [|ev rest IH]; intros s; [reflexivity|].
  rewrite run_cons. cbv zeta. unfold trace_of at 1. unfold snd.
  rewrite sends_app.
  destruct ev as [input cb|data| |].
  - destruct (handle_line_state lvl input cb s) as (C & S & _).
    rewrite S, IH, C. simpl.
    destruct (replClosed s || negb (truthy_string (trim input)));
      reflexivity.
  - simpl handle. destruct (on_message_state lvl data s) as (C & S & _).
    rewrite S, IH, C. reflexivity.
  - simpl handle. destruct (rl_close_state lvl s) as (C & S & _).
    rewrite S, IH, C. reflexivity.
  - simpl handle. destruct (on_ws_close_state lvl s) as (S & _).
    rewrite S. reflexivity.
Qed.

(** ** The REPL closes once *)

Lemma run_closes lvl evs :
  forall s,
    closes (trace_of (run lvl evs s)) =
    (if replClosed s then 0
     else if existsb is_closing evs then 1 else 0)%nat.
Proof.
  induction evs as [|ev rest IH]; intros s.
  - simpl. destruct (replClosed s); reflexivity.
  - rewrite run_cons. cbv zeta. unfold trace_of at 1. unfold snd.
    rewrite closes_app.
    destruct ev as [input cb|data| |].
    + destruct (handle_line_state lvl input cb s) as (C & _ & K).
      rewrite K, IH, C. reflexivity.
    + simpl handle. destruct (on_message_state lvl data s) as (C & _ & K).
      rewrite K, IH, C. reflexivity.
    + simpl handle. destruct (rl_close_state lvl s) as (C & _ & K).
      rewrite K, IH, C. simpl. destruct (replClosed s); reflexivity.
    + simpl handle. destruct (on_ws_close_state lvl s) as (_ & K).
      rewrite K. simpl. destruct (replClosed s); reflexivity.
Qed.

(** X4: over a whole connection the REPL is closed exactly once when the
    operator ends the input or the socket closes, whichever comes first
    (a later close finds it closed and does nothing), and it is not closed
    otherwise. *)
Theorem session_closes_repl_once lvl code evs s :
  closes (trace_of (session lvl code evs s)) =
  (if existsb is_closing evs then 1 else 0)%nat.
Proof.
  unfold session. rewrite (bind_run _ _ _ _ _ _ (on_connection_run _ _ _)).
  unfold trace_of at 1. unfold snd.
  rewrite !closes_app, closes_notice, run_closes. simpl.
  destruct code as [c|]; [destruct (truthy_string c)|]; reflexivity.
Qed.

(** ** The prompt flag over a connection *)

Lemma run_reachable lvl code evs :
  forall s,
    reachable lvl code s ->
    existsb is_socket_closed evs = false ->
    reachable lvl code (state_of (run lvl evs s)).
Proof.
  induction evs as [|ev rest IH]; intros s R N; [exact R|].
  rewrite run_cons. cbv zeta. unfold state_of at 1. simpl fst. simpl snd.
  simpl in N. apply orb_false_iff in N. destruct N as [N1 N2].
  assert (NE : ev <> SocketClosed) by (intros ->; discriminate).
  pose proof (reach_step lvl code s ev R NE) as R1.
  destruct ev; try (apply IH; assumption). discriminate.
Qed.

(** X5: as long as the socket of a connection has not closed, the prompt
    flag is cleared only while a command is pending: after any sequence of
    lines, messages and ends of input, an empty callback slot comes with
    [isPrompting] set. *)
Theorem prompt_hidden_only_while_pending lvl code evs s :
  existsb is_socket_closed evs = false ->
  finishCallback (state_of (session lvl code evs s)) = None ->
  isPrompting (state_of (session lvl code evs s)) = true.
Proof.
  intros N. unfold session.
  rewrite (bind_run _ _ _ _ _ _ (on_connection_run _ _ _)).
  unfold state_of at 1 3. simpl fst. simpl snd.
  apply (idle_is_prompting lvl code).
  apply run_reachable; [|exact N].
  pose proof (reach_connected lvl code s) as R.
  rewrite on_connection_run in R. exact R.
Qed.

Lemma prompt_hidden_only_while_pending_witness :
  isPrompting
    (state_of
       (session (num_of_Z 0) None
          [Line (lit "1+1") 1%nat; Message envelope_x_3; Line [32] 2%nat;
           EndOfInput] initial)) = true.
Proof.
  apply (prompt_hidden_only_while_pending (num_of_Z 0) None
           [Line (lit "1+1") 1%nat; Message envelope_x_3; Line [32] 2%nat;
            EndOfInput] initial); reflexivity.
Defined.

(** ** The request determines the line *)

Lemma hex_value_digit (n : N) : n < 16 -> hex_value (hex_digit n) = Some n.
Proof.
  intros L. unfold hex_value, hex_digit, isDigit.
  destruct (n <? 10) eqn:T.
  - apply N.ltb_lt in T.
    replace (48 <=? 48 + n) with true by (symmetry; apply N.leb_le; lia).
    replace (48 + n <=? 57) with true by (symmetry; apply N.leb_le; lia).
    cbn [andb]. f_equal. lia.
  - apply N.ltb_ge in T.
    replace (87 + n <=? 57) with false by (symmetry; apply N.leb_gt; lia).
    rewrite andb_false_r.
    replace (97 <=? 87 + n) with true by (symmetry; apply N.leb_le; lia).
    replace (87 + n <=? 102) with true by (symmetry; apply N.leb_le; lia).
    cbn [andb]. f_equal. lia.
Qed.

Lemma hex4_escape (c : N) :
  c < 65536 ->
  hex4 (hex_digit (c / 4096)) (hex_digit ((c / 256) mod 16))
       (hex_digit ((c / 16) mod 16)) (hex_digit (c mod 16)) = Some c.
Proof.
  intros L. unfold hex4.
  rewrite !hex_value_digit;
    try (apply N.mod_lt; discriminate);
    try (apply N.Div0.div_lt_upper_bound; exact L).
  f_equal.
  zify. Z.to_euclidean_division_equations. lia.
Qed.

Lemma parse_chars_quote_unit (c : N) (tail acc : jsstring) :
  parse_chars (quote_unit c ++ tail) acc = parse_chars tail (c :: acc).
Proof.
  unfold quote_unit.
  destruct (c =? 8) eqn:E8; [apply N.eqb_eq in E8; subst; reflexivity|].
  destruct (c =? 9) eqn:E9; [apply N.eqb_eq in E9; subst; reflexivity|].
  destruct (c =? 10) eqn:E10; [apply N.eqb_eq in E10; subst; reflexivity|].
  destruct (c =? 12) eqn:E12; [apply N.eqb_eq in E12; subst; reflexivity|].
  destruct (c =? 13) eqn:E13; [apply N.eqb_eq in E13; subst; reflexivity|].
  destruct (c =? 34) eqn:E34; [apply N.eqb_eq in E34; subst; reflexivity|].
  destruct (c =? 92) eqn:E92; [apply N.eqb_eq in E92; subst; reflexivity|].
  destruct ((c <? 32) || isLeadSurrogate c || isTrailSurrogate c) eqn:U.
  - assert (L : c < 65536).
    { apply orb_true_iff in U. destruct U as [U|U];
        [apply orb_true_iff in U; destruct U as [U|U]|].
      - apply N.ltb_lt in U. lia.
      - unfold isLeadSurrogate in U. apply andb_true_iff in U.
        destruct U as [_ U]. apply N.leb_le in U. lia.
      - unfold isTrailSurrogate in U. apply andb_true_iff in U.
        destruct U as [_ U]. apply N.leb_le in U. lia. }
    unfold unicode_escape. cbn [app parse_chars].
    change (92 =? 34) with false. change (92 =? 92) with true.
    change (117 =? 117) with true. cbv iota.
    rewrite (hex4_escape c L). reflexivity.
  - apply orb_false_iff in U. destruct U as [U _].
    apply orb_false_iff in U. destruct U as [U _].
    cbn [app parse_chars]. rewrite E34, E92, U. reflexivity.
Qed.

Lemma surrogate_is_plain (c : N) :
  isLeadSurrogate c = true \/ isTrailSurrogate c = true ->
  (c =? 34) = false /\ (c =? 92) = false /\ (c <? 32) = false.
Proof.
  unfold isLeadSurrogate, isTrailSurrogate.
  intros [H|H]; apply andb_true_iff in H; destruct H as [H _];
    apply N.leb_le in H;
    (split; [apply N.eqb_neq; lia|split;
       [apply N.eqb_neq; lia|apply N.ltb_ge; lia]]).
Qed.

Lemma parse_chars_quote_units (n : nat) :
  forall s acc rest,
    (List.length s <= n)%nat ->
    parse_chars (quote_units s ++ dquote :: rest) acc =
    Parsed (rev acc ++ s) rest.
Proof.
  induction n as [|n IH]; intros s acc rest L.
  - destruct s; [|simpl in L; lia]. simpl. rewrite app_nil_r. reflexivity.
  - destruct s as [|c r]; [simpl; rewrite app_nil_r; reflexivity|].
    simpl in L. cbn [quote_units].
    destruct r as [|d r'].
    + rewrite parse_chars_quote_unit. simpl. reflexivity.
    + destruct (isLeadSurrogate c && isTrailSurrogate d) eqn:P.
      * apply andb_true_iff in P. destruct P as [Pc Pd].
        destruct (surrogate_is_plain c (or_introl Pc)) as (A1 & A2 & A3).
        destruct (surrogate_is_plain d (or_intror Pd)) as (B1 & B2 & B3).
        cbn [app parse_chars]. rewrite A1, A2, A3, B1, B2, B3.
        simpl in L. rewrite IH by lia.
        simpl. rewrite <- !app_assoc. reflexivity.
      * rewrite <- app_assoc, parse_chars_quote_unit.
        rewrite IH by lia. simpl. rewrite <- app_assoc. reflexivity.
Qed.

Lemma JSON_parse_stringify (s : jsstring) :
  JSON_parse (JSON_stringify s) = Ret (JStr s).
Proof.
  unfold JSON_parse, parse_fuel, JSON_stringify.
  replace (2 * List.length (dquote :: quote_units s ++ [dquote]) + 2)%nat
    with (S (2 * List.length (dquote :: quote_units s ++ [dquote]) + 1))%nat
    by lia.
  cbn [parse_value].
  change (skip_ws (dquote :: quote_units s ++ [dquote]))
    with (dquote :: quote_units s ++ [dquote]).
  change (dquote =? 123) with false. change (dquote =? 91) with false.
  change (dquote =? 34) with true. cbv iota.
  rewrite (parse_chars_quote_units (List.length s) s [] []) by lia.
  reflexivity.
Qed.

(** X6: the request of a line carries the line as a JSON string literal
    from which [JSON.parse] gets the line back unchanged, control
    characters, quotes and lone surrogates included; so two different
    lines never give the same request. *)
Theorem wire_determines_line (a b : jsstring) :
  JSON_parse (JSON_stringify a) = Ret (JStr a) /\
  (wire a = wire b -> a = b).
Proof.
  split; [apply JSON_parse_stringify|].
  unfold wire. intros H.
  apply app_inv_head in H. apply app_inv_tail in H.
  apply (f_equal JSON_parse) in H.
  rewrite !JSON_parse_stringify in H. congruence.
Qed.

Lemma wire_determines_line_witness :
  JSON_parse (JSON_stringify (lit "a" ++ [dquote; 10; 55357; 1]))
  = Ret (JStr (lit "a" ++ [dquote; 10; 55357; 1])) /\
  lit "1+1" = lit "1+1".
Proof.
  split.
  - exact (proj1 (wire_determines_line (lit "a" ++ [dquote; 10; 55357; 1])
                    [])).
  - exact (proj2 (wire_determines_line (lit "1+1") (lit "1+1")) eq_refl).
Defined.

(** ** Which callbacks are called *)

Lemma handle_invocations lvl ev s :
  invocations (trace_of (handle lvl ev s)) =
  match ev with
  | Line input cb =>
      if replClosed s || truthy_string (trim input) then []
      else [(cb, NoArgs)]
  | Message data =>
      match finishCallback s with
      | Some f => [(f, Result data)]
      | None => []
      end
  | _ => []
  end.
Proof.
  destruct ev as [input cb|data| |].
  - rewrite handle_line_run. destruct (replClosed s); [reflexivity|].
    destruct (trim input) as [|c r] eqn:T.
    + rewrite (repl_eval_blank _ _ _ T). reflexivity.
    + rewrite repl_eval_command by congruence. reflexivity.
  - simpl handle. destruct (finishCallback s) as [cb|] eqn:F.
    + rewrite (on_message_awaiting lvl data s cb F).
      destruct (discordColorise data); reflexivity.
    + rewrite (on_message_idle lvl data s F).
      destruct (num_seq lvl (num_of_Z 2)); [reflexivity|].
      destruct (discordColorise data); reflexivity.
  - simpl handle. rewrite rl_close_run. unfold trace_of, snd.
    destruct (replClosed s); [reflexivity|].
    simpl. apply invocations_notice.
  - simpl handle. rewrite on_ws_close_run. unfold trace_of, snd.
    rewrite invocations_app, invocations_notice.
    destruct (replClosed s); [reflexivity|].
    simpl. apply invocations_notice.
Qed.

(** A callback in the slot was there before, or came with a line that is
    not blank. *)
Lemma handle_pending lvl ev s c :
  finishCallback (state_of (handle lvl ev s)) = Some c ->
  finishCallback s = Some c \/
  exists input, ev = Line input c /\ trim input <> [].
Proof.
  destruct ev as [input cb|data| |].
  - rewrite handle_line_run. destruct (replClosed s); [auto|].
    destruct (trim input) as [|x r] eqn:T.
    + rewrite (repl_eval_blank _ _ _ T). auto.
    + rewrite repl_eval_command by congruence. simpl.
      intros H. inversion H; subst. right. exists input.
      split; [reflexivity|congruence].
  - simpl handle. destruct (finishCallback s) as [cb|] eqn:F.
    + rewrite (on_message_awaiting lvl data s cb F).
      destruct (discordColorise data); simpl; [discriminate|auto].
    + rewrite (on_message_idle lvl data s F).
      destruct (num_seq lvl (num_of_Z 2)); [discriminate|].
      destruct (discordColorise data); discriminate.
  - simpl handle. rewrite rl_close_run. auto.
  - simpl handle. rewrite on_ws_close_run. auto.
Qed.

Lemma run_invocations lvl evs :
  forall s c a,
    In (c, a) (invocations (trace_of (run lvl evs s))) ->
    (a = NoArgs /\ exists input, In (Line input c) evs /\ trim input = []) \/
    (exists data,
       a = Result data /\ In (Message data) evs /\
       (finishCallback s = Some c \/
        exists input, In (Line input c) evs /\ trim input <> [])).
Proof.
  induction evs as [|ev rest IH]; intros s c a; [intros []|].
  rewrite run_cons. cbv zeta. unfold trace_of at 1. unfold snd.
  rewrite invocations_app, handle_invocations. intros H.
  apply in_app_or in H. destruct H as [H|H].
  - destruct ev as [input cb|data| |]; try destruct H.
    + destruct (replClosed s); [destruct H|].
      destruct (trim input) as [|x r] eqn:T; [|destruct H].
      destruct H as [H|[]]. inversion H; subst.
      left. split; [reflexivity|]. exists input.
      split; [left; reflexivity|exact T].
    + destruct (finishCallback s) as [f|] eqn:F; [|destruct H].
      destruct H as [H|[]]. inversion H; subst.
      right. exists data. split; [reflexivity|].
      split; [left; reflexivity|]. left. reflexivity.
  - assert (K : In (c, a) (invocations
                  (trace_of (run lvl rest (state_of (handle lvl ev s)))))).
    { destruct ev; try exact H. destruct H. }
    apply IH in K.
    destruct K as [(-> & input & I & T)|(data & -> & I & P)].
    + left. split; [reflexivity|]. exists input. split; [right|]; assumption.
    + right. exists data. split; [reflexivity|]. split; [right; exact I|].
      destruct P as [P|(input & I' & T)].
      * apply handle_pending in P.
        destruct P as [P|(input & -> & T)]; [left; exact P|].
        right. exists input. split; [left; reflexivity|exact T].
      * right. exists input. split; [right|]; assumption.
Qed.

(** X7: every call of a callback in a run is one of two kinds: [cb()] for
    a blank line, on the callback of that line; or [cb(null, data)] for a
    message [data] of the run, on a callback that was pending at the start
    or came with a line that is not blank.  In particular [cb(e)], the
    catch branch of [eval], is never taken. *)
Theorem callbacks_are_called_for_their_events lvl evs s c a :
  In (c, a) (invocations (trace_of (run lvl evs s))) ->
  (a = NoArgs /\
   exists input, In (Line input c) evs /\ whitespace_only input = true) \/
  (exists data,
     a = Result data /\ In (Message data) evs /\
     (finishCallback s = Some c \/
      exists input, In (Line input c) evs /\ whitespace_only input = false)).
Proof.
  intros H. apply run_invocations in H.
  destruct H as [(-> & input & I & T)|(data & -> & I & P)].
  - left. split; [reflexivity|]. exists input. split; [exact I|].
    apply trim_empty. exact T.
  - right. exists data. split; [reflexivity|]. split; [exact I|].
    destruct P as [P|(input & I' & T)]; [left; exact P|].
    right. exists input. split; [exact I'|].
    destruct (whitespace_only input) eqn:W; [|reflexivity].
    apply trim_empty in W. contradiction.
Qed.

Lemma callbacks_are_called_for_their_events_witness :
  (NoArgs = NoArgs /\
   exists input,
     In (Line input 2%nat) [Line (lit "1+1") 1%nat; Line [32] 2%nat] /\
     whitespace_only input = true) \/
  (exists data,
     NoArgs = Result data /\
     In (Message data) [Line (lit "1+1") 1%nat; Line [32] 2%nat] /\
     (finishCallback connected = Some 2%nat \/
      exists input,
        In (Line input 2%nat) [Line (lit "1+1") 1%nat; Line [32] 2%nat] /\
        whitespace_only input = false)).
Proof.
  apply (callbacks_are_called_for_their_events (num_of_Z 0)
           [Line (lit "1+1") 1%nat; Line [32] 2%nat] connected 2%nat NoArgs).
  vm_compute. left. reflexivity.
Defined.

(** X8: a line that is not blank, submitted while a command is pending,
    takes the slot of the pending callback, and that callback is lost: as
    long as the REPL does not hand it out again, it is never called. *)
Theorem overwritten_callback_is_never_called lvl s cb1 input cb2 rest a :
  finishCallback s = Some cb1 ->
  replClosed s = false ->
  whitespace_only input = false ->
  (forall i, ~ In (Line i cb1) (Line input cb2 :: rest)) ->
  finishCallback (state_of (handle lvl (Line input cb2) s)) = Some cb2 /\
  ~ In (cb1, a)
      (invocations (trace_of (run lvl (Line input cb2 :: rest) s))).
Proof.
  intros F C W Fresh.
  assert (T : trim input <> []).
  { intros T. apply trim_empty in T. congruence. }
  assert (H1 : handle lvl (Line input cb2) s =
               (Ret tt,
                {| isPrompting := false; finishCallback := Some cb2;
                   replClosed := replClosed s |}, [WsSend (wire input)])).
  { rewrite handle_line_run, (repl_eval_command _ _ _ T), C. reflexivity. }
  split; [rewrite H1; reflexivity|].
  rewrite run_cons. cbv zeta. rewrite H1. unfold trace_of at 1.
  unfold snd at 1. unfold state_of, fst, snd. simpl app. simpl invocations.
  intros I. apply run_invocations in I.
  destruct I as [(_ & i & I & _)|(data & _ & _ & [P|(i & I & _)])].
  - apply (Fresh i). right. exact I.
  - simpl in P. inversion P; subst. apply (Fresh input). left. reflexivity.
  - apply (Fresh i). right. exact I.
Qed.

Lemma overwritten_callback_is_never_called_witness :
  ~ In (1%nat, Result envelope_x_3)
      (invocations
         (trace_of
            (run (num_of_Z 0)
               [Line (lit "2+2") 2%nat; Message envelope_x_3;
                Message envelope_x_3]
               {| isPrompting := false; finishCallback := Some 1%nat;
                  replClosed := false |}))).
Proof.
  apply (overwritten_callback_is_never_called (num_of_Z 0)
           {| isPrompting := false; finishCallback := Some 1%nat;
              replClosed := false |}
           1%nat (lit "2+2") 2%nat
           [Message envelope_x_3; Message envelope_x_3]
           (Result envelope_x_3) eq_refl eq_refl eq_refl).
  intros i [H|[H|[H|[]]]]; discriminate.
Defined.

(** ** The console at level 2 *)

Lemma num_seq_not_lt (a b : JSNumber) :
  num_seq a b = true -> num_lt a b = false.
Proof.
  intros H. destruct (num_lt a b) eqn:L; [|reflexivity].
  apply num_lt_not_seq in L. congruence.
Qed.

Lemma prefix_cases (s : State) :
  prefix s = [] \/ prefix s = [Plain (Lit newline)].
Proof. unfold prefix. destruct (isPrompting s); auto. Qed.

Lemma run_console_level2 lvl evs :
  num_seq lvl (num_of_Z 2) = true ->
  forall s x,
    In (ConsoleLog x) (trace_of (run lvl evs s)) ->
    (exists data,
       In (Message data) evs /\
       (x = [Plain (Lit data)] \/
        x = [Plain (Lit newline); Plain (Lit data)])) \/
    x = error_line \/ x = Plain (Lit newline) :: error_line.
Proof.
  intros L2. pose proof (num_seq_not_lt _ _ L2) as NL.
  induction evs as [|ev rest IH]; intros s x; [intros []|].
  rewrite run_cons. cbv zeta. unfold trace_of at 1. unfold snd.
  intros H. apply in_app_or in H. destruct H as [H|H].
  - destruct ev as [input cb|data| |].
    + rewrite handle_line_run in H. destruct (replClosed s); [destruct H|].
      destruct (trim input) as [|c r] eqn:T.
      * rewrite (repl_eval_blank _ _ _ T) in H. simpl in H.
        destruct H as [H|[H|[]]]; discriminate.
      * rewrite repl_eval_command in H by congruence. simpl in H.
        destruct H as [H|[]]; discriminate.
    + simpl handle in H. destruct (finishCallback s) as [cb|] eqn:F.
      * rewrite (on_message_awaiting lvl data s cb F) in H.
        destruct (discordColorise data); simpl in H.
        -- destruct H as [H|[H|[H|[H|[]]]]]; discriminate.
        -- destruct H as [H|[H|[H|[H|[]]]]]; try discriminate.
           inversion H. right.
           destruct (prefix_cases s) as [P|P]; rewrite P; auto.
      * rewrite (on_message_idle lvl data s F), L2 in H. simpl in H.
        destruct H as [H|[H|[]]]; try discriminate.
        inversion H. left. exists data. split; [left; reflexivity|].
        destruct (prefix_cases s) as [P|P]; rewrite P; auto.
    + simpl handle in H. rewrite rl_close_run in H. unfold trace_of, snd in H.
      unfold notice in H. rewrite NL in H.
      destruct (replClosed s); [destruct H|].
      destruct H as [H|[]]; discriminate.
    + simpl handle in H. rewrite on_ws_close_run in H.
      unfold trace_of, snd in H. unfold notice in H. rewrite NL in H.
      destruct (replClosed s); [destruct H|].
      destruct H as [H|[]]; discriminate.
  - assert (K : In (ConsoleLog x)
                  (trace_of (run lvl rest (state_of (handle lvl ev s))))).
    { destruct ev; try exact H. destruct H. }
    apply IH in K. destruct K as [(data & I & E)|E]; [|right; exact E].
    left. exists data. split; [right; exact I|exact E].
Qed.

(** X9: at silent level 2 none of the debugger's notices is logged: over
    a whole connection every line logged to the console is the raw payload
    of one of the messages, or the error line for a reply that could not
    be formatted (either of them after a line feed when the prompt is
    shown). *)
Theorem level_two_logs_only_payloads lvl code evs s x :
  num_seq lvl (num_of_Z 2) = true ->
  In (ConsoleLog x) (trace_of (session lvl code evs s)) ->
  (exists data,
     In (Message data) evs /\
     (x = [Plain (Lit data)] \/
      x = [Plain (Lit newline); Plain (Lit data)])) \/
  x = error_line \/ x = Plain (Lit newline) :: error_line.
Proof.
  intros L2. unfold session.
  rewrite (bind_run _ _ _ _ _ _ (on_connection_run _ _ _)).
  unfold trace_of at 1. unfold snd. unfold notice.
  rewrite (num_seq_not_lt _ _ L2). simpl app.
  intros [H|H]; [discriminate|].
  apply in_app_or in H. destruct H as [H|H].
  - destruct code as [c|]; [destruct (truthy_string c)|]; simpl in H;
      intuition discriminate.
  - eapply run_console_level2; eauto.
Qed.

Lemma level_two_logs_only_payloads_witness :
  (exists data,
     In (Message data) [Message (lit "hello"); SocketClosed] /\
     ([Plain (Lit newline); Plain (Lit (lit "hello"))] = [Plain (Lit data)] \/
      [Plain (Lit newline); Plain (Lit (lit "hello"))] =
      [Plain (Lit newline); Plain (Lit data)])) \/
  [Plain (Lit newline); Plain (Lit (lit "hello"))] = error_line \/
  [Plain (Lit newline); Plain (Lit (lit "hello"))] =
  Plain (Lit newline) :: error_line.
Proof.
  apply (level_two_logs_only_payloads (num_of_Z 2) (Some (lit "init()"))
           [Message (lit "hello"); SocketClosed] initial
           [Plain (Lit newline); Plain (Lit (lit "hello"))] eq_refl).
  vm_compute. right. right. left. reflexivity.
Defined.

(** ** What the formatter makes of a payload *)

Lemma colorise_vendetta (message : text) :
  colorise message (lit "Vendetta") (info COLORS_client) =
  vendetta_tag :: message.
Proof. reflexivity. Qed.

Lemma level_is_unique (level : jsval) (a b : Z) :
  level_is level a = true -> level_is level b = true -> a = b.
Proof.
  destruct level as [| | |n| | |]; simpl; try discriminate.
  destruct n as [| |x|]; simpl; try discriminate.
  intros A B. apply Qeq_bool_iff in A, B.
  rewrite A in B. unfold Qeq, inject_Z in B. simpl in B. lia.
Qed.

(** X10: the formatter throws in three cases only: with a SyntaxError
    when the payload is not JSON; with a TypeError when it is the JSON
    text [null]; and with a TypeError when the message of the parsed
    value does not convert to a string (an object with a member
    [toString], or an array holding one).  Every text it returns begins
    with the cyan tag [[Vendetta] ]. *)
Theorem formatter_throws_in_three_cases (d : jsstring) :
  (forall e,
     discordColorise d = Throw e <->
     (JSON_parse d = Throw SyntaxError /\ e = SyntaxError) \/
     (JSON_parse d = Ret JNull /\ e = TypeError) \/
     (exists v,
        JSON_parse d = Ret v /\ v <> JNull /\
        convertible (get_prop (lit "message") v) = false /\
        e = TypeError)) /\
  (forall t,
     discordColorise d = Ret t -> exists body, t = vendetta_tag :: body).
Proof.
  destruct (JSON_parse d) as [v|e'] eqn:P.
  - assert (N : v = JNull \/ v <> JNull)
      by (destruct v; auto; right; discriminate).
    destruct N as [->|N].
    + unfold discordColorise. rewrite P. split.
      * intros e. split.
        -- intros H. inversion H. right. left. split; reflexivity.
        -- intros [[H _]|[[_ ->]|(v & H & N & _)]];
             [discriminate|reflexivity|].
           exfalso. apply N. congruence.
      * intros t H. discriminate.
    + rewrite (discordColorise_parsed d v P N).
      destruct (convertible (get_prop (lit "message") v)) eqn:C.
      * destruct (proj1 (message_text_outcome (get_prop (lit "level") v)
                           (get_prop (lit "message") v)) C) as [body B].
        simpl info in B. simpl warning in B. simpl error in B.
        rewrite B. split.
        -- intros e. split; [discriminate|].
           intros [[H _]|[[H _]|(v' & H & _ & C' & _)]];
             [discriminate|congruence|].
           inversion H; subst v'. congruence.
        -- intros t H. inversion H. exists body. reflexivity.
      * pose proof (proj2 (message_text_outcome (get_prop (lit "level") v)
                             (get_prop (lit "message") v)) C) as B.
        simpl info in B. simpl warning in B. simpl error in B.
        rewrite B. split.
        -- intros e. split.
           ++ intros H. inversion H. right. right. exists v. auto.
           ++ intros [[H _]|[[H _]|(v' & _ & _ & _ & ->)]];
                [discriminate|congruence|reflexivity].
        -- intros t H. discriminate.
  - pose proof (JSON_parse_throws d e' P) as ->.
    unfold discordColorise. rewrite P. split.
    + intros e. split.
      * intros H. inversion H. left. split; reflexivity.
      * intros [[_ ->]|[[H _]|(v & H & _)]];
          [reflexivity|discriminate|discriminate].
    + intros t H. discriminate.
Qed.

Lemma formatter_throws_in_three_cases_witness :
  discordColorise (lit "null") = Throw TypeError /\
  discordColorise (lit "{oops") = Throw SyntaxError /\
  discordColorise
    (lit "{" ++ quoted "message" ++ lit ":[{" ++ quoted "toString" ++
     lit ":0}]}") = Throw TypeError /\
  exists body, Ret [vendetta_tag; Styled red (Lit (lit "x"))]
               = Ret (vendetta_tag :: body) :> Outcome text.
Proof.
  split; [|split; [|split]].
  - apply (proj1 (formatter_throws_in_three_cases (lit "null"))).
    right. left. split; reflexivity.
  - apply (proj1 (formatter_throws_in_three_cases (lit "{oops"))).
    left. split; reflexivity.
  - apply (proj1 (formatter_throws_in_three_cases
                    (lit "{" ++ quoted "message" ++ lit ":[{" ++
                     quoted "toString" ++ lit ":0}]}"))).
    right. right.
    exists (JObj [(lit "message",
                   JArr [JObj [(lit "toString", JNum (num_of_Z 0))]])]).
    split; [reflexivity|]. split; [discriminate|]. split; reflexivity.
  - destruct (proj2 (formatter_throws_in_three_cases envelope_x_3)
                [vendetta_tag; Styled red (Lit (lit "x"))] eq_refl)
      as [body E].
    exists body. rewrite E. reflexivity.
Defined.

(** X11: a payload that is valid JSON but neither an object nor [null] (a
    number, a string, a boolean, an array) has no message and no level: it
    is shown as the tag followed by the word [undefined], whatever it
    contains. *)
Theorem scalar_payload_shows_undefined (d : jsstring) (v : jsval) :
  JSON_parse d = Ret v ->
  v <> JNull ->
  (forall ps, v <> JObj ps) ->
  discordColorise d = Ret [vendetta_tag; Plain (Shown JUndefined)].
Proof.
  intros P N O. unfold discordColorise. rewrite P.
  destruct v; try congruence; try reflexivity.
  all: exfalso; eapply O; reflexivity.
Qed.

Lemma scalar_payload_shows_undefined_witness :
  discordColorise (lit "2") = Ret [vendetta_tag; Plain (Shown JUndefined)].
Proof.
  apply (scalar_payload_shows_undefined (lit "2") (JNum (num_of_Z 2)));
    [reflexivity | discriminate | discriminate].
Defined.

(** X12: at a coloured level (0, 2 or 3) an envelope whose message is
    absent, [null] or the empty string is shown as the tag alone: the
    style functions turn all three into the empty string. *)
Theorem empty_message_prints_tag_only (d : jsstring) (v : jsval) (k : Z) :
  JSON_parse d = Ret v ->
  get_prop (lit "message") v = JUndefined \/
  get_prop (lit "message") v = JNull \/
  get_prop (lit "message") v = JStr [] ->
  k = 0%Z \/ k = 2%Z \/ k = 3%Z ->
  level_is (get_prop (lit "level") v) k = true ->
  discordColorise d = Ret [vendetta_tag].
Proof.
  intros P M K L. unfold discordColorise. rewrite P.
  assert (E : (if level_is (get_prop (lit "level") v) 0
               then paint (info COLORS_client) (get_prop (lit "message") v)
               else if level_is (get_prop (lit "level") v) 2
               then paint (warning COLORS_client)
                      (get_prop (lit "message") v)
               else if level_is (get_prop (lit "level") v) 3
               then paint (error COLORS_client) (get_prop (lit "message") v)
               else show (get_prop (lit "message") v)) = Ret []).
  { destruct (level_is (get_prop (lit "level") v) 0) eqn:L0;
      [destruct M as [->|[->| ->]]; reflexivity|].
    destruct (level_is (get_prop (lit "level") v) 2) eqn:L2;
      [destruct M as [->|[->| ->]]; reflexivity|].
    destruct (level_is (get_prop (lit "level") v) 3) eqn:L3;
      [destruct M as [->|[->| ->]]; reflexivity|].
    destruct K as [->|[->| ->]]; congruence. }
  destruct v; try (simpl in L; discriminate);
    cbv zeta; rewrite E; reflexivity.
Qed.

Lemma empty_message_prints_tag_only_witness :
  discordColorise (lit "{" ++ quoted "level" ++ lit ":3}") =
  Ret [vendetta_tag].
Proof.
  apply (empty_message_prints_tag_only
           (lit "{" ++ quoted "level" ++ lit ":3}")
           (JObj [(lit "level", JNum (num_of_Z 3))]) 3%Z);
    [reflexivity | left; reflexivity | right; right; reflexivity
    | reflexivity].
Defined.

(** X13: the level is compared as a number: an envelope whose level is
    absent or is not a JSON number (the string "3", a boolean, an object)
    gets no colour, and its message string is shown as it is after the
    tag. *)
Theorem non_numeric_level_is_not_coloured (d : jsstring) (v : jsval)
    (m : jsstring) :
  JSON_parse d = Ret v ->
  get_prop (lit "message") v = JStr m ->
  (forall q, get_prop (lit "level") v <> JNum q) ->
  discordColorise d = Ret [vendetta_tag; Plain (Lit m)].
Proof.
  intros P M L. unfold discordColorise. rewrite P.
  assert (Z : forall k, level_is (get_prop (lit "level") v) k = false).
  { intros k. destruct (get_prop (lit "level") v) as [| | |n| | |] eqn:G;
      try reflexivity.
    exfalso. apply (L n). reflexivity. }
  destruct v; try discriminate.
  cbv zeta. rewrite !Z, M. reflexivity.
Qed.

Lemma non_numeric_level_is_not_coloured_witness :
  discordColorise
    (lit "{" ++ quoted "message" ++ lit ":" ++ quoted "hi" ++ lit "," ++
     quoted "level" ++ lit ":" ++ quoted "3" ++ lit "}") =
  Ret [vendetta_tag; Plain (Lit (lit "hi"))].
Proof.
  apply (non_numeric_level_is_not_coloured
           (lit "{" ++ quoted "message" ++ lit ":" ++ quoted "hi" ++
            lit "," ++ quoted "level" ++ lit ":" ++ quoted "3" ++ lit "}")
           (JObj [(lit "message", JStr (lit "hi"));
                  (lit "level", JStr (lit "3"))])
           (lit "hi") eq_refl eq_refl).
  intros q. discriminate.
Defined.

(** ** Start-up, option by option *)

(** X14: start-up ends with a thrown error in exactly four cases, checked
    in this order: [silent] is not a number; [silent] is above 2 or below
    0; [port] is not a number; the options are valid and the file passes
    the access check but reading it is rejected (that rejection is not
    caught).  In each of them nothing has been printed and no variable has
    changed, and in the first three the file system plays no part. *)
Theorem startup_throws_in_four_cases silent port path access readFile s e :
  (outcome_of (startup silent port path access readFile s) = Throw e <->
   (isNaN silent = true /\ e = PlainError msg_silent_number) \/
   (isNaN silent = false /\
    num_gt silent (num_of_Z 2) || num_lt silent (num_of_Z 0) = true /\
    e = PlainError msg_silent_range) \/
   (isNaN silent = false /\
    num_gt silent (num_of_Z 2) || num_lt silent (num_of_Z 0) = false /\
    isNaN port = true /\ e = PlainError msg_port_number) \/
   (isNaN silent = false /\
    num_gt silent (num_of_Z 2) || num_lt silent (num_of_Z 0) = false /\
    isNaN port = false /\
    exists p,
      path = Some p /\ truthy_string p = true /\
      access p = None /\ readFile p = Throw e)) /\
  (outcome_of (startup silent port path access readFile s) = Throw e ->
   trace_of (startup silent port path access readFile s) = [] /\
   state_of (startup silent port path access readFile s) = s) /\
  (isNaN silent = true \/
   num_gt silent (num_of_Z 2) || num_lt silent (num_of_Z 0) = true \/
   isNaN port = true ->
   forall access' readFile',
     startup silent port path access' readFile' s =
     startup silent port path access readFile s).
Proof.
  unfold startup.
  destruct (isNaN silent).
  { split; [|split].
    - split.
      + intros H. inversion H. left. split; reflexivity.
      + intros [[_ ->]|[[H _]|[[H _]|[H _]]]]; [reflexivity|discriminate..].
    - intros _. split; reflexivity.
    - intros _ a' r'. reflexivity. }
  destruct (num_gt silent (num_of_Z 2) || num_lt silent (num_of_Z 0)).
  { split; [|split].
    - split.
      + intros H. inversion H. right. left. repeat split.
      + intros [[H _]|[(_ & _ & ->)|[(_ & H & _)|(_ & H & _)]]];
          [discriminate|reflexivity|discriminate..].
    - intros _. split; reflexivity.
    - intros _ a' r'. reflexivity. }
  destruct (isNaN port).
  { split; [|split].
    - split.
      + intros H. inversion H. right. right. left. repeat split.
      + intros [[H _]|[(_ & H & _)|[(_ & _ & _ & ->)|(_ & _ & H & _)]]];
          [discriminate|discriminate|reflexivity|discriminate].
    - intros _. split; reflexivity.
    - intros _ a' r'. reflexivity. }
  destruct (read_onConnected_run path access readFile s)
    as (t & R & _ & _ & TE).
  assert (N : forall x,
             outcome_of
               (match x with
                | Some c =>
                    when (num_lt silent (num_of_Z 1))
                      (console_log [Plain (Lit banner)]) ;;
                    ret (Some {| silentLvl := silent; wssPort := port;
                                 onConnectedCode := c |})
                | None => ret None
                end s) <> Throw e).
  { intros [c|]; [|discriminate].
    unfold when. destruct (num_lt silent (num_of_Z 1)); discriminate. }
  match type of R with
  | _ = (?o, _, _) => destruct o as [x|e0] eqn:O
  end.
  - rewrite (bind_run _ _ _ _ _ _ R). split; [|split].
    + split.
      * intros H. exfalso. revert H. apply N.
      * intros [[H _]|[(_ & H & _)|[(_ & _ & H & _)|
                 (_ & _ & _ & p & -> & T & A & F)]]];
          try discriminate.
        rewrite T, A, F in O. discriminate O.
    + intros H. exfalso. revert H. apply N.
    + intros [H|[H|H]]; discriminate.
  - assert (T0 : t = []).
    { apply (TE e0). rewrite R. reflexivity. }
    subst t. unfold bind. rewrite R. split; [|split].
    + split.
      * intros H. inversion H; subst e0. right. right. right.
        repeat split.
        destruct path as [p|]; [|discriminate O].
        destruct (truthy_string p) eqn:T; [|discriminate O].
        destruct (access p) eqn:A; [discriminate O|].
        destruct (readFile p) eqn:F; [discriminate O|].
        inversion O; subst. exists p. repeat split; assumption.
      * intros [[H _]|[(_ & H & _)|[(_ & _ & H & _)|
                 (_ & _ & _ & p & -> & T & A & F)]]];
          try discriminate.
        rewrite T, A, F in O. inversion O. reflexivity.
    + intros _. split; reflexivity.
    + intros [H|[H|H]]; discriminate.
Qed.

Lemma startup_throws_in_four_cases_witness :
  startup NaN NaN (Some (lit "init.js")) (fun _ => None)
    (fun _ => Ret (lit "init()")) initial =
  (Throw (PlainError msg_silent_number), initial, []) /\
  outcome_of
    (startup (num_of_Z 3) (num_of_Z 9090) None (fun _ => None)
       (fun _ => Ret []) initial) =
  Throw (PlainError msg_silent_range) /\
  outcome_of
    (startup (num_of_Z 0) (num_of_Z 9090) (Some (lit "dir")) (fun _ => None)
       (fun _ => Throw (PlainError (lit "EISDIR"))) initial) =
  Throw (PlainError (lit "EISDIR")).
Proof.
  split; [|split].
  - destruct (proj1 (proj2 (startup_throws_in_four_cases NaN NaN
                       (Some (lit "init.js")) (fun _ => None)
                       (fun _ => Ret (lit "init()"))
                       initial (PlainError msg_silent_number))) eq_refl)
      as [T S].
    reflexivity.
  - apply (proj1 (startup_throws_in_four_cases (num_of_Z 3)
                    (num_of_Z 9090) None (fun _ => None) (fun _ => Ret [])
                    initial (PlainError msg_silent_range))).
    right. left. repeat split.
  - apply (proj1 (startup_throws_in_four_cases (num_of_Z 0)
                    (num_of_Z 9090) (Some (lit "dir")) (fun _ => None)
                    (fun _ => Throw (PlainError (lit "EISDIR")))
                    initial (PlainError (lit "EISDIR")))).
    right. right. right. repeat split.
    exists (lit "dir"). repeat split.
Defined.

(** X15: with valid options and a path for which the access check is
    rejected, the process exits after printing that the path is not
    accessible and the error itself; the file is not read and the welcome
    message is not printed, at any level. *)
Theorem inaccessible_file_exits_without_banner silent port path access
    readFile s e :
  isNaN silent = false ->
  num_gt silent (num_of_Z 2) = false ->
  num_lt silent (num_of_Z 0) = false ->
  isNaN port = false ->
  truthy_string path = true ->
  access path = Some e ->
  startup silent port (Some path) access readFile s =
  (Ret None, s,
   [ConsoleLog [Plain (Lit msg_not_accessible)]; ConsoleError e]).
Proof.
  intros A B C D T F. unfold startup. rewrite A, B, C, D. cbn [orb].
  unfold bind, read_onConnected. rewrite T, F. reflexivity.
Qed.

Lemma inaccessible_file_exits_without_banner_witness :
  startup (num_of_Z 0) (num_of_Z 9090) (Some (lit "gone.js"))
    (fun _ => Some (PlainError (lit "ENOENT")))
    (fun _ => Throw (PlainError (lit "ENOENT"))) initial =
  (Ret None, initial,
   [ConsoleLog [Plain (Lit msg_not_accessible)];
    ConsoleError (PlainError (lit "ENOENT"))]).
Proof.
  apply (inaccessible_file_exits_without_banner (num_of_Z 0) (num_of_Z 9090)
           (lit "gone.js") (fun _ => Some (PlainError (lit "ENOENT")))
           (fun _ => Throw (PlainError (lit "ENOENT")))
           initial (PlainError (lit "ENOENT")));
    reflexivity.
Defined.



(** ** The filter on process warnings *)






(** ** Lines and replies together *)

Lemma trace_of_triple {A} (o : Outcome A) (s : State) (t : list Event) :
  trace_of (o, s, t) = t.
Proof. reflexivity. Qed.

Lemma state_of_triple {A} (o : Outcome A) (s : State) (t : list Event) :
  state_of (o, s, t) = s.
Proof. reflexivity. Qed.

(** X18: a blank line submitted while a command is pending leaves the
    command pending: the blank line's own callback is called at once, and
    the next message still goes to the callback of the earlier command. *)
Theorem blank_line_keeps_pending_command lvl s cb1 cb2 input data :
  finishCallback s = Some cb1 ->
  replClosed s = false ->
  whitespace_only input = true ->
  invocations (trace_of (run lvl [Line input cb2; Message data] s)) =
  [(cb2, NoArgs); (cb1, Result data)].
Proof.
  intros F C W. apply trim_empty in W.
  rewrite run_cons. cbv zeta.
  assert (H : handle lvl (Line input cb2) s =
              (Ret tt, s, [Invoke cb2 NoArgs; DisplayPrompt])).
  { rewrite handle_line_run, C. apply repl_eval_blank, W. }
  rewrite H, !trace_of_triple. cbn [snd fst state_of].
  rewrite run_cons. cbv zeta. rewrite !trace_of_triple.
  rewrite !invocations_app.
  rewrite (handle_invocations lvl (Message data) s), F. reflexivity.
Qed.

Lemma blank_line_keeps_pending_command_witness :
  invocations
    (trace_of
       (run (num_of_Z 0) [Line [32; 10] 2%nat; Message envelope_x_3]
          {| isPrompting := false; finishCallback := Some 1%nat;
             replClosed := false |})) =
  [(2%nat, NoArgs); (1%nat, Result envelope_x_3)].
Proof.
  apply (blank_line_keeps_pending_command (num_of_Z 0)
           {| isPrompting := false; finishCallback := Some 1%nat;
              replClosed := false |} 1%nat 2%nat [32; 10] envelope_x_3);
    reflexivity.
Defined.

(** X19: a command and its reply make a full cycle: from the state a
    connection starts in, a line that is not blank followed by a reply the
    formatter accepts sends the request, calls the callback of the line
    with the reply, writes the formatted reply and a line feed, redraws
    the prompt (twice: the REPL and the listener each do), and ends in
    the starting state again. *)
Theorem command_reply_cycle lvl input cb data t :
  whitespace_only input = false ->
  discordColorise data = Ret t ->
  run lvl [Line input cb; Message data] connected =
  (Ret tt, connected,
   [WsSend (wire input); Invoke cb (Result data);
    ReplWrite (t ++ [Plain (Lit newline)]); DisplayPrompt; DisplayPrompt]).
Proof.
  intros W D.
  assert (T : trim input <> []).
  { intros T. apply trim_empty in T. congruence. }
  rewrite run_cons. cbv zeta.
  assert (H : handle lvl (Line input cb) connected =
              (Ret tt,
               {| isPrompting := false; finishCallback := Some cb;
                  replClosed := false |}, [WsSend (wire input)])).
  { rewrite handle_line_run. apply repl_eval_command, T. }
  rewrite H, !state_of_triple, !trace_of_triple.
  rewrite run_cons. cbv zeta. simpl handle.
  rewrite (on_message_awaiting lvl data
             {| isPrompting := false; finishCallback := Some cb;
                replClosed := false |} cb eq_refl), D.
  reflexivity.
Qed.

Lemma command_reply_cycle_witness :
  run (num_of_Z 0) [Line (lit "1+1") 1%nat; Message envelope_x_3] connected =
  (Ret tt, connected,
   [WsSend (wire (lit "1+1")); Invoke 1%nat (Result envelope_x_3);
    ReplWrite [vendetta_tag; Styled red (Lit (lit "x")); Plain (Lit newline)];
    DisplayPrompt; DisplayPrompt]).
Proof.
  apply (command_reply_cycle (num_of_Z 0) (lit "1+1") 1%nat envelope_x_3
           [vendetta_tag; Styled red (Lit (lit "x"))]);
    reflexivity.
Defined.
